(** * stt-bg: the batch transcription pipeline of [shot.py]

    A shallow embedding of the four functions of [shot.py]
    ([extract_audio], [transcribe_file], [process_files], [process_folder])
    and the properties of the batch pipeline that the specification states.

    Conventions of the model.
    - Python [str] values are Rocq [string]s, sequences of 8-bit characters
      (text outside ASCII in UTF-8).  [Str.lower] and [Str.upper] change the
      ASCII letters only; Python's [str.lower] also changes cased characters
      outside ASCII, so [transcribe_file_with] takes the lower-casing
      function as a parameter and [transcribe_file] is its instance at
      [Str.lower], exact on paths whose extension is ASCII.
    - [pathlib.Path] is the POSIX flavour: separator [/], case-sensitive
      pattern matching in [glob], [suffix] as in CPython up to 3.13.
    - The file system is a finite map from path strings to contents.  Every
      call that leaves the Python code (model loading, the subprocess, the
      recognition call, temporary files, unlink, write) appends an event to
      a trace, so that the order and the arguments of the calls can be
      stated.
    - The collaborators (whisper, ffmpeg, the temporary-name generator and
      the directory listing) are fields of an environment record [Env];
      theorems quantify over it.
    - A Python exception is represented by its message, [str(e)].  State
      changes made before an exception is raised persist. *)

From Stdlib Require Import String Ascii ZArith Bool Lia.
From stdpp Require Import base list option strings gmap fin_maps.

Local Open Scope string_scope.
Local Open Scope list_scope.
Local Open Scope stdpp_scope.

(** ** Strings *)

Module Str.

(** The line feed, written [\n] in the source. *)
Definition nl : string := String (ascii_of_nat 10) EmptyString.

Definition ascii_lower (c : ascii) : ascii :=
  let n := nat_of_ascii c in
  if (65 <=? n)%nat && (n <=? 90)%nat then ascii_of_nat (n + 32) else c.

Definition ascii_upper (c : ascii) : ascii :=
  let n := nat_of_ascii c in
  if (97 <=? n)%nat && (n <=? 122)%nat then ascii_of_nat (n - 32) else c.

(** [str.lower] and [str.upper]. *)
Fixpoint lower (s : string) : string :=
  match s with
  | EmptyString => EmptyString
  | String c s' => String (ascii_lower c) (lower s')
  end.

Fixpoint upper (s : string) : string :=
  match s with
  | EmptyString => EmptyString
  | String c s' => String (ascii_upper c) (upper s')
  end.

(** [sep.join(l)]. *)
Fixpoint join (sep : string) (l : list string) : string :=
  match l with
  | [] => ""
  | [x] => x
  | x :: rest => x +:+ sep +:+ join sep rest
  end.

(** [s.rfind(c)] for a one-character [c]; [None] stands for [-1]. *)
Fixpoint rfind (c : ascii) (s : string) : option nat :=
  match s with
  | EmptyString => None
  | String a s' =>
      match rfind c s' with
      | Some i => Some (S i)
      | None => if Ascii.eqb a c then Some 0%nat else None
      end
  end.

(** [s[i:]]. *)
Definition drop (i : nat) (s : string) : string :=
  substring i (String.length s - i) s.

(** [fnmatch.fnmatchcase(name, pat)] for patterns made of literal
    characters, [*] and [?].  Bracket classes are not modelled: the patterns
    built in [process_folder] contain none. *)
Fixpoint fnmatch (pat : string) : string -> bool :=
  match pat with
  | EmptyString => fun name => String.eqb name ""
  | String c pat' =>
      if Ascii.eqb c "*" then
        fix star (name : string) : bool :=
          fnmatch pat' name
          || match name with
             | EmptyString => false
             | String _ name' => star name'
             end
      else if Ascii.eqb c "?" then
        fun name =>
          match name with
          | EmptyString => false
          | String _ name' => fnmatch pat' name'
          end
      else
        fun name =>
          match name with
          | EmptyString => false
          | String a name' => Ascii.eqb a c && fnmatch pat' name'
          end
  end.

(** [s.split(c)] for a one-character separator: the pieces between the
    occurrences of [c]; [cur] is the piece being read. *)
Fixpoint split_from (c : ascii) (cur : string) (s : string) : list string :=
  match s with
  | EmptyString => [cur]
  | String a s' =>
      if Ascii.eqb a c then cur :: split_from c "" s'
      else split_from c (cur +:+ String a "") s'
  end.

Definition split (c : ascii) (s : string) : list string := split_from c "" s.

(** [x in l] for a list of strings. *)
Definition mem (x : string) (l : list string) : bool :=
  existsb (String.eqb x) l.

End Str.

(** ** Pure POSIX paths *)

Module PurePath.

(** A parsed path: the root ([""], ["/"] or ["//"]) and the components. *)
Record t := mk { root : string; parts : list string }.

Definition posix_root (s : string) : string :=
  if String.prefix "///" s then "/"
  else if String.prefix "//" s then "//"
  else if String.prefix "/" s then "/"
  else "".

Definition keep_part (x : string) : bool :=
  negb (String.eqb x "") && negb (String.eqb x ".").

(** [Path(s)]: empty components and [.] components are dropped. *)
Definition of_string (s : string) : t :=
  mk (posix_root s) (List.filter keep_part (Str.split "/" s)).

(** [str(p)]. *)
Definition to_string (p : t) : string :=
  match parts p with
  | [] => if String.eqb (root p) "" then "." else root p
  | _ => root p +:+ Str.join "/" (parts p)
  end.

(** [p.name]: the final component, if any. *)
Definition name (p : t) : string := List.last (parts p) "".

(** [p.suffix]: [name[i:]] for [i = name.rfind('.')] when
    [0 < i < len(name) - 1], else the empty string. *)
Definition suffix (p : t) : string :=
  let n := name p in
  match Str.rfind "." n with
  | Some i =>
      if (0 <? i)%nat && (i <? String.length n - 1)%nat then Str.drop i n
      else ""
  | None => ""
  end.

(** The path of a directory entry [entry] of [p]. *)
Definition child (p : t) (entry : string) : t :=
  mk (root p) (parts p ++ [entry]).

End PurePath.

(** ** The world: file system and call trace *)

(** The calls that leave the Python code, with their arguments. *)
Inductive Event : Type :=
| EvLoadModel (model_name : string)
| EvNamedTemporaryFile (name : string)
| EvSubprocessRun (cmd : list string)
| EvTranscribe (audio_path : string) (language : option string)
| EvUnlink (path : string)
| EvWrite (path : string) (text : string).

Record World : Type := mkWorld {
  fs : gmap string string;
  trace : list Event
}.

(** The result of running Python code: a value, or an exception, kept as
    its message [str(e)]. *)
Inductive Outcome (A : Type) : Type :=
| Return (a : A)
| Raise (msg : string).

Arguments Return {A} a.
Arguments Raise {A} msg.

(** The collaborators of the pipeline.
    - [mkstemp_name w sfx]: the name [tempfile] picks for a new file with
      suffix [sfx].
    - [whisper_load_model w model_name]: the loaded model (a handle), or
      the exception [whisper.load_model] raises.
    - [subprocess_run w cmd]: [subprocess.run(cmd, capture_output=True)];
      either the process could not be started (an exception), or it ran and
      left the file system [fs'] and the exit status [returncode].
    - [model_transcribe w model audio_path language]: the ["text"] entry of
      the result of [model.transcribe], or the exception it raises.
    - [scandir w dir]: the names of the entries of directory [dir], in the
      order the file system enumerates them; empty when [dir] cannot be
      listed. *)
Record Env : Type := mkEnv {
  mkstemp_name : World -> string -> string;
  whisper_load_model : World -> string -> Outcome string;
  subprocess_run : World -> list string -> Outcome (Z * gmap string string);
  model_transcribe : World -> string -> string -> option string -> Outcome string;
  scandir : World -> string -> list string
}.

(** ** State and exceptions *)

Definition M (A : Type) : Type := World -> Outcome A * World.

Definition ret {A : Type} (a : A) : M A := fun w => (Return a, w).

Definition bind {A B : Type} (c : M A) (k : A -> M B) : M B :=
  fun w =>
    match c w with
    | (Return a, w1) => k a w1
    | (Raise msg, w1) => (Raise msg, w1)
    end.

(** [try: c except Exception as e: handler(str(e))]. *)
Definition try_except {A : Type} (c : M A) (handler : string -> M A) : M A :=
  fun w =>
    match c w with
    | (Return a, w1) => (Return a, w1)
    | (Raise msg, w1) => handler msg w1
    end.

Notation "'let*' x := c 'in' k" := (bind c (fun x => k))
  (at level 10, x name, c at level 100, k at level 200).

Definition logged (w : World) (e : Event) : World :=
  mkWorld (fs w) (trace w ++ [e]).

Definition video_exts : list string :=
  [".mp4"; ".avi"; ".mov"; ".mkv"; ".flv"; ".wmv"].

Definition audio_exts : list string :=
  [".mp3"; ".wav"; ".ogg"; ".aac"; ".flac"; ".m4a"; ".wma"].

Section Pipeline.

Context (E : Env).

(** [tempfile.NamedTemporaryFile(delete=False, suffix=sfx)] followed by the
    use of its [.name]: a new, empty file. *)
Definition NamedTemporaryFile (sfx : string) : M string :=
  fun w =>
    let name := mkstemp_name E w sfx in
    (Return name, mkWorld (<[name := ""]> (fs w)) (trace w ++ [EvNamedTemporaryFile name])).

(** [f.write(text)] then [f.close()] on the file opened under [name]. *)
Definition file_write (name text : string) : M unit :=
  fun w =>
    (Return tt,
     mkWorld (<[name := default "" (fs w !! name) +:+ text]> (fs w))
             (trace w ++ [EvWrite name text])).

(** [os.unlink(path)]. *)
Definition os_unlink (path : string) : M unit :=
  fun w =>
    match fs w !! path with
    | Some _ => (Return tt, mkWorld (delete path (fs w)) (trace w ++ [EvUnlink path]))
    | None =>
        (Raise ("[Errno 2] No such file or directory: '" +:+ path +:+ "'"),
         logged w (EvUnlink path))
    end.

(** [subprocess.run(cmd, capture_output=True)]; the value is the
    [returncode] of the completed process. *)
Definition run_subprocess (cmd : list string) : M Z :=
  fun w =>
    match subprocess_run E w cmd with
    | Return (returncode, fs') =>
        (Return returncode, mkWorld fs' (trace w ++ [EvSubprocessRun cmd]))
    | Raise msg => (Raise msg, logged w (EvSubprocessRun cmd))
    end.

Definition load_model (model_name : string) : M string :=
  fun w =>
    match whisper_load_model E w model_name with
    | Return model => (Return model, logged w (EvLoadModel model_name))
    | Raise msg => (Raise msg, logged w (EvLoadModel model_name))
    end.

Definition transcribe (model audio_path : string) (language : option string) : M string :=
  fun w =>
    match model_transcribe E w model audio_path language with
    | Return text => (Return text, logged w (EvTranscribe audio_path language))
    | Raise msg => (Raise msg, logged w (EvTranscribe audio_path language))
    end.

(** [Path(dir).glob(pat)] for a one-component pattern: the entries of the
    directory whose name matches, in enumeration order. *)
Definition glob (dir : PurePath.t) (pat : string) : M (list PurePath.t) :=
  fun w =>
    (Return (List.map (PurePath.child dir)
               (List.filter (Str.fnmatch pat) (scandir E w (PurePath.to_string dir)))),
     w).

(** *** [extract_audio] *)

Definition ffmpeg_cmd (video_path temp_audio : string) : list string :=
  ["ffmpeg"; "-i"; video_path;
   "-vn"; "-acodec"; "pcm_s16le";
   "-ar"; "16000"; "-ac"; "1";
   "-y"; temp_audio].

Definition extract_audio (video_path : string) : M string :=
  let* temp_audio := NamedTemporaryFile ".wav" in
  let* _ := run_subprocess (ffmpeg_cmd video_path temp_audio) in
  ret temp_audio.

(** *** [transcribe_file] *)

Definition transcribe_file (file_path model_name language : string) : M string :=
  let* model := load_model model_name in
  let* audio_path :=
    (if Str.mem (Str.lower (PurePath.suffix (PurePath.of_string file_path))) video_exts
     then extract_audio file_path
     else ret file_path) in
  let lang := if String.eqb language "auto" then None else Some language in
  let* text := transcribe model audio_path lang in
  let* _ := (if negb (String.eqb audio_path file_path)
        then os_unlink audio_path
        else ret tt) in
  ret text.

(** *** [process_files] *)

Definition entry_ok (display_name text : string) : string :=
  "=== " +:+ display_name +:+ " ===" +:+ Str.nl +:+ text +:+ Str.nl.

Definition entry_error (display_name msg : string) : string :=
  "=== " +:+ display_name +:+ " ===" +:+ Str.nl +:+ "Error: " +:+ msg +:+ Str.nl.

(** The [for file in files] loop; [files] holds the [.name] of each
    uploaded file object, [results] is the list being appended to. *)
Fixpoint files_loop (files : list string) (model_name language : string)
    (results : list string) : M (list string) :=
  match files with
  | [] => ret results
  | file :: rest =>
      let* results' :=
        try_except
          (let* text := transcribe_file file model_name language in
           ret (results ++ [entry_ok (PurePath.name (PurePath.of_string file)) text]))
          (fun e =>
             ret (results ++ [entry_error (PurePath.name (PurePath.of_string file)) e])) in
      files_loop rest model_name language results'
  end.

(** Writing the report to a temporary file for download. *)
Definition save_report (full_text : string) : M string :=
  let* temp_output := NamedTemporaryFile ".txt" in
  let* _ := file_write temp_output full_text in
  ret temp_output.

Definition process_files (files : list string) (model_name language : string)
    : M (string * option string) :=
  match files with
  | [] => ret ("No files uploaded", None)
  | _ =>
      let* results := files_loop files model_name language [] in
      let full_text := Str.join Str.nl results in
      let* temp_output := save_report full_text in
      ret (full_text, Some temp_output)
  end.

(** *** [process_folder] *)

(** The [for ext in all_exts] loop, extending [files] twice per extension. *)
Fixpoint glob_loop (dir : PurePath.t) (exts : list string)
    (files : list PurePath.t) : M (list PurePath.t) :=
  match exts with
  | [] => ret files
  | ext :: rest =>
      let* lower_hits := glob dir ("*" +:+ ext) in
      let* upper_hits := glob dir ("*" +:+ Str.upper ext) in
      glob_loop dir rest ((files ++ lower_hits) ++ upper_hits)
  end.

(** The [for file_path in files] loop of [process_folder]. *)
Fixpoint paths_loop (files : list PurePath.t) (model_name language : string)
    (results : list string) : M (list string) :=
  match files with
  | [] => ret results
  | file_path :: rest =>
      let* results' :=
        try_except
          (let* text := transcribe_file (PurePath.to_string file_path) model_name language in
           ret (results ++ [entry_ok (PurePath.name file_path) text]))
          (fun e => ret (results ++ [entry_error (PurePath.name file_path) e])) in
      paths_loop rest model_name language results'
  end.

Definition process_folder (folder_path model_name language : string)
    : M (string * option string) :=
  if String.eqb folder_path "" then ret ("No folder selected", None)
  else
    let all_exts := audio_exts ++ video_exts in
    let* files := glob_loop (PurePath.of_string folder_path) all_exts [] in
    match files with
    | [] => ret ("No audio/video files found in folder", None)
    | _ =>
        let* results := paths_loop files model_name language [] in
        let full_text := Str.join Str.nl results in
        let* temp_output := save_report full_text in
        ret (full_text, Some temp_output)
    end.

End Pipeline.

(** *** [transcribe_file], for any lower-casing function

    [transcribe_file] with [str.lower] left as the parameter [lower]:
    Python lower-cases every cased Unicode character (the Kelvin sign
    becomes [k]), which [Str.lower] does for ASCII letters only. *)
Definition transcribe_file_with (lower : string -> string) (E : Env)
    (file_path model_name language : string) : M string :=
  let* model := load_model E model_name in
  let* audio_path :=
    (if Str.mem (lower (PurePath.suffix (PurePath.of_string file_path))) video_exts
     then extract_audio E file_path
     else ret file_path) in
  let lang := if String.eqb language "auto" then None else Some language in
  let* text := transcribe E model audio_path lang in
  let* _ := (if negb (String.eqb audio_path file_path)
        then os_unlink audio_path
        else ret tt) in
  ret text.



(** ** Statements about runs *)

(** The items [transcribe_file] sends through extraction. *)
Definition is_video (file_path : string) : Prop :=
  Str.lower (PurePath.suffix (PurePath.of_string file_path)) ∈ video_exts.

(** [emitted w w' evs]: going from [w] to [w'] appended the events [evs]. *)
Definition emitted (w w' : World) (evs : list Event) : Prop :=
  trace w' = trace w ++ evs.

(** [batch_run E model language w files outcomes w']: the items of [files]
    were handed to [transcribe_file] one after the other, each starting in
    the world the previous one left, whatever its outcome was. *)
Inductive batch_run (E : Env) (model_name language : string)
  : World -> list string -> list (Outcome string) -> World -> Prop :=
| batch_nil (w : World) : batch_run E model_name language w [] [] w
| batch_cons (w w1 w2 : World) (file : string) (rest : list string)
    (o : Outcome string) (os : list (Outcome string)) :
    transcribe_file E file model_name language w = (o, w1) ->
    batch_run E model_name language w1 rest os w2 ->
    batch_run E model_name language w (file :: rest) (o :: os) w2.

(** The entry the loop body of [process_files] appends for an item. *)
Definition entry_of (file : string) (o : Outcome string) : string :=
  match o with
  | Return text => entry_ok (PurePath.name (PurePath.of_string file)) text
  | Raise msg => entry_error (PurePath.name (PurePath.of_string file)) msg
  end.

(** *** The report as the specification words it

    A result is a success holding the text or a failure holding an error
    description, tagged with the display name of its item. *)
Inductive TranscriptionResult : Type :=
| Success (display_name text : string)
| Failure (display_name description : string).

Definition result_of (file : string) (o : Outcome string) : TranscriptionResult :=
  match o with
  | Return text => Success (PurePath.name (PurePath.of_string file)) text
  | Raise msg => Failure (PurePath.name (PurePath.of_string file)) msg
  end.

Definition header_line (display_name : string) : string :=
  "=== " +:+ display_name +:+ " ===".

(** The lines of one entry: the header line, then the text or
    [Error: <description>]. *)
Definition entry_lines (r : TranscriptionResult) : list string :=
  match r with
  | Success n text => [header_line n; text]
  | Failure n description => [header_line n; "Error: " +:+ description]
  end.

(** The lines of the report: the entries in order, a blank line between
    two consecutive entries. *)
Fixpoint report_lines (rs : list TranscriptionResult) : list string :=
  match rs with
  | [] => []
  | [r] => entry_lines r
  | r :: rest => entry_lines r ++ [""] ++ report_lines rest
  end.

(** Each line is ended by a line feed. *)
Fixpoint unlines (ls : list string) : string :=
  match ls with
  | [] => ""
  | l :: rest => l +:+ Str.nl +:+ unlines rest
  end.

Definition render_report (rs : list TranscriptionResult) : string :=
  unlines (report_lines rs).

(** *** Assumptions on the collaborators *)

(** [tempfile] picks a name that is not in use. *)
Definition fresh_names (E : Env) : Prop :=
  forall (w : World) (sfx : string), fs w !! mkstemp_name E w sfx = None.

(** A subprocess changes no file but its last argument (for ffmpeg as
    invoked here: the output file). *)
Definition writes_only_output (E : Env) : Prop :=
  forall (w : World) (cmd : list string) (returncode : Z) (fs' : gmap string string),
    subprocess_run E w cmd = Return (returncode, fs') ->
    forall p : string, p ≠ List.last cmd "" -> fs' !! p = fs w !! p.

(** ** A concrete environment for running the model *)

Module Demo.

Fixpoint pad (n : nat) : string :=
  match n with
  | O => ""
  | S n' => String "x" (pad n')
  end.

(** The length of the longest path in use. *)
Definition longest (m : gmap string string) : nat :=
  foldr (fun kv n => Nat.max (String.length kv.1) n) 0%nat (map_to_list m).

(** A name longer than every path in use. *)
Definition tmp_name (w : World) (sfx : string) : string :=
  "/tmp/tmp" +:+ pad (longest (fs w)) +:+ sfx.

(** ffmpeg: fails with status 1 and writes nothing when the input is
    missing or holds ["garbage"]; else writes the decoded audio. *)
Definition ffmpeg (w : World) (cmd : list string) : Outcome (Z * gmap string string) :=
  match cmd with
  | prog :: _ :: video_path :: _ =>
      if negb (String.eqb prog "ffmpeg") then Raise "[Errno 2] No such file or directory"
      else
        match fs w !! video_path with
        | Some content =>
            if String.eqb content "garbage" then Return (1%Z, fs w)
            else Return (0%Z, <[List.last cmd "" := "pcm:" +:+ content]> (fs w))
        | None => Return (1%Z, fs w)
        end
  | _ => Raise "[Errno 2] No such file or directory"
  end.

(** The recognition call: fails on missing, empty and ["static"] audio. *)
Definition recognise (w : World) (model audio_path : string) (language : option string)
    : Outcome string :=
  match fs w !! audio_path with
  | None => Raise "Failed to load audio: no such file"
  | Some content =>
      if String.eqb content "" then Raise "Failed to load audio: empty"
      else if String.eqb content "pcm:static" then Raise "cannot decode"
      else Return (" words of " +:+ content)
  end.

Definition listing (w : World) (dir : string) : list string :=
  if String.eqb dir "/media" then
    ["talk.mp3"; "clip.Mp4"; "CLIP.MP4"; "notes.txt"; "b.wav"; "film.mkv"]
  else if String.eqb dir "/mixed" then ["clip.Mp4"]
  else if String.eqb dir "/docs" then ["notes.txt"; "mp4"]
  else [].

Definition env : Env :=
  mkEnv tmp_name (fun _ model_name => Return model_name) ffmpeg recognise listing.

(** The same, on a machine where ffmpeg cannot be started. *)
Definition env_no_ffmpeg : Env :=
  mkEnv tmp_name (fun _ model_name => Return model_name)
    (fun _ _ => Raise "[Errno 2] No such file or directory: 'ffmpeg'")
    recognise listing.

(** The same, with a model name whisper does not know. *)
Definition env_bad_model : Env :=
  mkEnv tmp_name (fun _ model_name => Raise ("Model " +:+ model_name +:+ " not found"))
    ffmpeg recognise listing.

Definition files0 : gmap string string :=
  <["/up/speech.wav" := "hello"]>
    (<["/up/clip.mp4" := "video"]>
       (<["/up/static.mp4" := "static"]>
          (<["/up/broken.mp4" := "garbage"]>
             (<["/up/corrupt.wav" := ""]>
                (<["/media/talk.mp3" := "talk"]>
                   (<["/media/CLIP.MP4" := "film"]> ∅)))))).

Definition world0 : World := mkWorld files0 [].

(** The Kelvin sign U+212A in UTF-8. *)
Definition kelvin_sign : string :=
  String (ascii_of_nat 226) (String (ascii_of_nat 132) (String (ascii_of_nat 170) "")).

Definition is_kelvin (a b c : ascii) : bool :=
  (nat_of_ascii a =? 226)%nat && (nat_of_ascii b =? 132)%nat && (nat_of_ascii c =? 170)%nat.

(** A lower-casing function that, like Python's, turns the Kelvin sign into
    [k], and lower-cases the ASCII letters. *)
Fixpoint lower_kelvin (s : string) : string :=
  match s with
  | EmptyString => EmptyString
  | String a s' =>
      match s' with
      | String b (String c rest) =>
          if is_kelvin a b c then String "k" (lower_kelvin rest)
          else String (Str.ascii_lower a) (lower_kelvin s')
      | _ => String (Str.ascii_lower a) (lower_kelvin s')
      end
  end.

(** An upload whose extension is [.mKv] written with the Kelvin sign. *)
Definition kelvin_clip : string := "/up/clip.m" +:+ kelvin_sign +:+ "v".

End Demo.

(** The language hint of a run: [None if language == "auto" else language]. *)
Definition hint_of (language : string) : option string :=
  if String.eqb language "auto" then None else Some language.

(** *** Folder discovery in closed form *)

(** What [Path(dir).glob("*" + lit)] yields in world [w]. *)
Definition glob_hits (E : Env) (w : World) (dir : PurePath.t) (lit : string)
    : list PurePath.t :=
  List.map (PurePath.child dir)
    (List.filter (Str.fnmatch ("*" +:+ lit)) (scandir E w (PurePath.to_string dir))).

(** The list the extension loop builds: per extension, the hits of the
    extension as written, then the hits of its upper-case form. *)
Definition discovered (E : Env) (w : World) (dir : PurePath.t) (exts : list string)
    : list PurePath.t :=
  flat_map (fun ext => glob_hits E w dir ext ++ glob_hits E w dir (Str.upper ext)) exts.

(** *** Further vocabulary for statements *)

(** The entry the loop body of [process_folder] appends for a discovered
    path. *)
Definition folder_entry_of (file_path : PurePath.t) (o : Outcome string) : string :=
  match o with
  | Return text => entry_ok (PurePath.name file_path) text
  | Raise msg => entry_error (PurePath.name file_path) msg
  end.

Definition is_load_event (e : Event) : bool :=
  match e with EvLoadModel _ => true | _ => false end.

Definition is_transcribe_event (e : Event) : bool :=
  match e with EvTranscribe _ _ => true | _ => false end.

Definition is_subprocess_event (e : Event) : bool :=
  match e with EvSubprocessRun _ => true | _ => false end.

Definition is_unlink_event (e : Event) : bool :=
  match e with EvUnlink _ => true | _ => false end.

Definition count_events (f : Event -> bool) (evs : list Event) : nat :=
  length (List.filter f evs).

(** A directory entry name as the file system hands it out: not empty, not
    [.], and without a separator. *)
Definition entry_name_ok (entry : string) : bool :=
  PurePath.keep_part entry
  && match Str.split "/" entry with
     | [_] => true
     | _ => false
     end.

(** Directory listings hold entry names only. *)
Definition listing_well_formed (E : Env) : Prop :=
  forall (w : World) (dir : string), Forall (fun entry => entry_name_ok entry = true) (scandir E w dir).

(** A pattern text without wildcard characters. *)
Fixpoint no_wildcard (s : string) : bool :=
  match s with
  | EmptyString => true
  | String c s' => negb (Ascii.eqb c "*") && negb (Ascii.eqb c "?") && no_wildcard s'
  end.

(** The pattern tails [process_folder] globs for, in the order of the loop:
    each extension as written, then in upper case. *)
Definition scan_patterns (exts : list string) : list string :=
  flat_map (fun ext => [ext; Str.upper ext]) exts.

(** * Properties *)

(** ** Strings and paths on examples *)

Example suffix_clip : PurePath.suffix (PurePath.of_string "/up/clip.mp4") = ".mp4".
Proof. reflexivity. Qed.

Example suffix_upper :
  Str.lower (PurePath.suffix (PurePath.of_string "CLIP.MP4")) = ".mp4".
Proof. reflexivity. Qed.

Example suffix_hidden : PurePath.suffix (PurePath.of_string "dir/.mp4") = "".
Proof. reflexivity. Qed.

Example name_trailing : PurePath.name (PurePath.of_string "a/b.wav/./") = "b.wav".
Proof. reflexivity. Qed.

Example join_three : Str.join "-" ["a"; "b"; "c"] = "a-b-c".
Proof. reflexivity. Qed.

Example fnmatch_case :
  Str.fnmatch "*.mp4" "clip.Mp4" = false
  /\ Str.fnmatch ("*" +:+ Str.upper ".mp4") "clip.MP4" = true
  /\ Str.fnmatch "*.mp4" ".mp4" = true.
Proof. repeat split; reflexivity. Qed.

(** ** String algebra *)

Lemma append_cons (c : ascii) (s t : string) :
  String c s +:+ t = String c (s +:+ t).
Proof. reflexivity. Qed.

Lemma append_nil_l (t : string) : "" +:+ t = t.
Proof. reflexivity. Qed.

Lemma append_nil_r (s : string) : s +:+ "" = s.
Proof.
  induction s as [|c s IH]; [reflexivity |].
  now rewrite append_cons, IH.
Qed.

Lemma append_assoc (a b c : string) : (a +:+ b) +:+ c = a +:+ (b +:+ c).
Proof.
  induction a as [|x a IH]; [reflexivity |].
  now rewrite !append_cons, IH.
Qed.

Lemma length_append (a b : string) :
  String.length (a +:+ b) = (String.length a + String.length b)%nat.
Proof.
  induction a as [|x a IH]; [reflexivity |].
  rewrite append_cons. simpl. now rewrite IH.
Qed.

Lemma mem_elem_of (x : string) (l : list string) : Str.mem x l = true <-> x ∈ l.
Proof.
  unfold Str.mem. rewrite existsb_exists. split.
  - intros (y & Hy & Heq). apply String.eqb_eq in Heq. subst y.
    now apply list_elem_of_In.
  - intros Hx. exists x. split; [now apply list_elem_of_In | apply String.eqb_refl].
Qed.

(** ** The report text *)

Lemma unlines_app (a b : list string) : unlines (a ++ b) = unlines a +:+ unlines b.
Proof.
  induction a as [|l a IH]; simpl; [reflexivity |].
  now rewrite IH, !append_assoc.
Qed.

Lemma entry_of_unlines (file : string) (o : Outcome string) :
  entry_of file o = unlines (entry_lines (result_of file o)).
Proof.
  destruct o as [text | msg];
    unfold entry_of, result_of, entry_lines, unlines, entry_ok, entry_error, header_line;
    now rewrite !append_assoc, !append_nil_r.
Qed.

Lemma join_entries_render (rs : list TranscriptionResult) :
  Str.join Str.nl (List.map (fun r => unlines (entry_lines r)) rs) = render_report rs.
Proof.
  unfold render_report.
  induction rs as [|r rest IH]; [reflexivity |].
  destruct rest as [|r' rest]; [reflexivity |].
  change (report_lines (r :: r' :: rest))
    with (entry_lines r ++ [""] ++ report_lines (r' :: rest)).
  rewrite !unlines_app, <- IH. reflexivity.
Qed.

Lemma zip_entries_results (files : list string) (os : list (Outcome string)) :
  zip_with entry_of files os
  = List.map (fun r => unlines (entry_lines r)) (zip_with result_of files os).
Proof.
  revert os. induction files as [|f files IH]; intros [|o os]; simpl; try reflexivity.
  now rewrite IH, entry_of_unlines.
Qed.

(** ** The loop of [process_files] *)

Lemma batch_run_length E model_name language w files os w' :
  batch_run E model_name language w files os w' -> length os = length files.
Proof. induction 1; simpl; congruence. Qed.

Lemma files_loop_batch E model_name language (files : list string) :
  forall (results : list string) (w : World),
  exists (os : list (Outcome string)) (w1 : World),
    batch_run E model_name language w files os w1
    /\ files_loop E files model_name language results w
       = (Return (results ++ zip_with entry_of files os), w1).
Proof.
  induction files as [|file rest IH]; intros results w.
  - exists [], w. split; [constructor |]. simpl. now rewrite app_nil_r.
  - simpl. unfold bind at 1. unfold try_except, bind at 1.
    destruct (transcribe_file E file model_name language w) as [[text | msg] w1] eqn:Hrun.
    + destruct (IH (results ++ [entry_ok (PurePath.name (PurePath.of_string file)) text]) w1)
        as (os & w2 & Hbatch & Hloop).
      exists (Return text :: os), w2. split; [econstructor; eassumption |].
      unfold ret at 1. rewrite Hloop. simpl. now rewrite <- app_assoc.
    + destruct (IH (results ++ [entry_error (PurePath.name (PurePath.of_string file)) msg]) w1)
        as (os & w2 & Hbatch & Hloop).
      exists (Raise msg :: os), w2. split; [econstructor; eassumption |].
      unfold ret at 1. rewrite Hloop. simpl. now rewrite <- app_assoc.
Qed.

Lemma save_report_run E (full_text : string) (w : World) :
  save_report E full_text w
  = (Return (mkstemp_name E w ".txt"),
     mkWorld (<[mkstemp_name E w ".txt" := full_text]> (fs w))
             (trace w ++ [EvNamedTemporaryFile (mkstemp_name E w ".txt");
                          EvWrite (mkstemp_name E w ".txt") full_text])).
Proof.
  unfold save_report, bind, NamedTemporaryFile, file_write, ret. simpl.
  rewrite lookup_insert_eq. simpl. rewrite insert_insert_eq, <- app_assoc.
  reflexivity.
Qed.

Lemma process_files_run E model_name language (file : string) (rest : list string)
    (w : World) :
  exists (os : list (Outcome string)) (w1 : World),
    batch_run E model_name language w (file :: rest) os w1
    /\ process_files E (file :: rest) model_name language w
       = (let full_text := Str.join Str.nl (zip_with entry_of (file :: rest) os) in
          let temp_output := mkstemp_name E w1 ".txt" in
          (Return (full_text, Some temp_output),
           mkWorld (<[temp_output := full_text]> (fs w1))
                   (trace w1 ++ [EvNamedTemporaryFile temp_output;
                                 EvWrite temp_output full_text]))).
Proof.
  destruct (files_loop_batch E model_name language (file :: rest) [] w)
    as (os & w1 & Hbatch & Hloop).
  exists os, w1. split; [assumption |].
  unfold process_files. unfold bind at 1. rewrite Hloop.
  unfold bind at 1. rewrite save_report_run. reflexivity.
Qed.

(** C1.  For a non-empty list of files, [process_files] hands every item to
    [transcribe_file] in submission order, each one starting where the
    previous one stopped whether it returned or raised; it returns a report
    that joins exactly one entry per item in that order, the entry of an
    item that raised being its failure entry. *)
Theorem process_files_one_entry_per_item E model_name language
    (file : string) (rest : list string) (w : World) :
  exists (os : list (Outcome string)) (w1 w2 : World) (temp_output : string),
    batch_run E model_name language w (file :: rest) os w1
    /\ length os = length (file :: rest)
    /\ process_files E (file :: rest) model_name language w
       = (Return (Str.join Str.nl (zip_with entry_of (file :: rest) os),
                  Some temp_output), w2)
    /\ length (zip_with entry_of (file :: rest) os) = length (file :: rest)
    /\ (forall (i : nat) (f : string) (o : Outcome string),
          (file :: rest) !! i = Some f -> os !! i = Some o ->
          zip_with entry_of (file :: rest) os !! i = Some (entry_of f o))
    /\ (forall (i : nat) (f msg : string),
          (file :: rest) !! i = Some f -> os !! i = Some (Raise msg) ->
          zip_with entry_of (file :: rest) os !! i
          = Some (entry_error (PurePath.name (PurePath.of_string f)) msg)).
Proof.
  destruct (process_files_run E model_name language file rest w)
    as (os & w1 & Hbatch & Hrun).
  pose proof (batch_run_length _ _ _ _ _ _ _ Hbatch) as Hlen.
  eexists os, w1, _, _. split; [exact Hbatch |]. split; [exact Hlen |].
  split; [exact Hrun |]. split; [| split].
  - rewrite length_zip_with. lia.
  - intros i f o Hf Ho. rewrite lookup_zip_with, Hf. simpl. now rewrite Ho.
  - intros i f msg Hf Ho. rewrite lookup_zip_with, Hf. simpl. now rewrite Ho.
Qed.

Example failures_do_not_stop_the_batch :
  fst (process_files Demo.env_no_ffmpeg
         ["/up/clip.mp4"; "/up/corrupt.wav"; "/up/speech.wav"] "base" "auto" Demo.world0)
  = Return
      (unlines ["=== clip.mp4 ===";
                "Error: [Errno 2] No such file or directory: 'ffmpeg'"; "";
                "=== corrupt.wav ==="; "Error: Failed to load audio: empty"; "";
                "=== speech.wav ==="; " words of hello"],
       Some "/tmp/tmpxxxxxxxxxxxxxxxxxxxxxxxxxxx.txt").
Proof. vm_compute. reflexivity. Qed.

(** C6.  The text [process_files] returns is the rendering of the results in
    input order: per result the header line [=== <display name> ===], the
    display name being the final segment of the path, then the text or
    [Error: <description>], with a blank line between consecutive entries. *)
Theorem process_files_report_text E model_name language
    (file : string) (rest : list string) (w : World) :
  exists (os : list (Outcome string)) (w1 w2 : World) (temp_output : string),
    batch_run E model_name language w (file :: rest) os w1
    /\ process_files E (file :: rest) model_name language w
       = (Return (render_report (zip_with result_of (file :: rest) os),
                  Some temp_output), w2).
Proof.
  destruct (process_files_run E model_name language file rest w)
    as (os & w1 & Hbatch & Hrun).
  eexists os, w1, _, _. split; [exact Hbatch |].
  rewrite Hrun. cbv zeta.
  now rewrite zip_entries_results, join_entries_render.
Qed.

Example report_two_items :
  fst (process_files Demo.env ["/up/speech.wav"; "/up/corrupt.wav"] "base" "auto" Demo.world0)
  = Return
      (unlines ["=== speech.wav ==="; " words of hello"; "";
                "=== corrupt.wav ==="; "Error: Failed to load audio: empty"],
       Some "/tmp/tmpxxxxxxxxxxxxxxx.txt").
Proof. vm_compute. reflexivity. Qed.

(** C7.  Whenever [process_files] returns a report with a download path,
    the file at that path holds exactly the returned text; a non-empty
    batch always returns such a pair, and the write of that text is the
    last call of the run. *)
Theorem persisted_report_equals_returned_text E model_name language
    (files : list string) (w : World) :
  match process_files E files model_name language w with
  | (Return (full_text, Some temp_output), w') =>
      fs w' !! temp_output = Some full_text
      /\ exists evs, trace w' = evs ++ [EvWrite temp_output full_text]
  | (Return (_, None), _) => files = []
  | (Raise _, _) => False
  end.
Proof.
  destruct files as [|file rest].
  - reflexivity.
  - destruct (process_files_run E model_name language file rest w)
      as (os & w1 & _ & Hrun).
    rewrite Hrun. cbv zeta. simpl. split.
    + apply lookup_insert_eq.
    + exists (trace w1 ++ [EvNamedTemporaryFile (mkstemp_name E w1 ".txt")]).
      now rewrite <- app_assoc.
Qed.

Example persisted_two_items :
  let '(r, w') :=
    process_files Demo.env ["/up/speech.wav"; "/up/corrupt.wav"] "base" "auto" Demo.world0 in
  exists text path, r = Return (text, Some path) /\ fs w' !! path = Some text.
Proof. vm_compute. eauto. Qed.

(** ** Folder discovery *)

Lemma glob_loop_run E (dir : PurePath.t) (exts : list string) :
  forall (files : list PurePath.t) (w : World),
    glob_loop E dir exts files w = (Return (files ++ discovered E w dir exts), w).
Proof.
  induction exts as [|ext rest IH]; intros files w.
  - simpl. unfold ret, discovered. simpl. now rewrite app_nil_r.
  - simpl. unfold bind, glob. rewrite IH. unfold discovered, glob_hits. simpl.
    now rewrite <- !app_assoc.
Qed.

(** What the scan finds: the entries whose name ends in one of the
    extensions as written or in its upper-case form. *)
Lemma discovered_iff E (w : World) (dir : PurePath.t) (exts : list string)
    (p : PurePath.t) :
  p ∈ discovered E w dir exts
  <-> exists (entry ext : string),
        p = PurePath.child dir entry
        /\ entry ∈ scandir E w (PurePath.to_string dir)
        /\ ext ∈ exts
        /\ (Str.fnmatch ("*" +:+ ext) entry = true
            \/ Str.fnmatch ("*" +:+ Str.upper ext) entry = true).
Proof.
  unfold discovered, glob_hits.
  rewrite list_elem_of_In, in_flat_map. split.
  - intros (ext & Hext & Hin). apply in_app_or in Hin.
    destruct Hin as [Hin | Hin]; apply in_map_iff in Hin;
      destruct Hin as (entry & <- & Hin); apply filter_In in Hin;
      destruct Hin as [Hentry Hmatch];
      exists entry, ext; rewrite !list_elem_of_In; auto.
  - intros (entry & ext & -> & Hentry & Hext & Hmatch).
    apply list_elem_of_In in Hentry, Hext.
    exists ext. split; [assumption |]. apply in_or_app.
    destruct Hmatch as [Hmatch | Hmatch]; [left | right];
      apply in_map; apply filter_In; auto.
Qed.

Lemma discovered_nil E (w : World) (dir : PurePath.t) (exts : list string) :
  (forall entry ext : string,
      entry ∈ scandir E w (PurePath.to_string dir) -> ext ∈ exts ->
      Str.fnmatch ("*" +:+ ext) entry = false
      /\ Str.fnmatch ("*" +:+ Str.upper ext) entry = false) ->
  discovered E w dir exts = [].
Proof.
  intros Hnone.
  destruct (discovered E w dir exts) as [|p rest] eqn:Hd; [reflexivity |].
  assert (Hp : p ∈ discovered E w dir exts) by (rewrite Hd; left).
  apply discovered_iff in Hp.
  destruct Hp as (entry & ext & _ & Hentry & Hext & Hmatch).
  destruct (Hnone entry ext Hentry Hext) as [H1 H2].
  destruct Hmatch; congruence.
Qed.

(** Matching is stable under lower-casing of the pattern and the name. *)

Lemma ascii_lower_meta (c : ascii) :
  (Ascii.eqb (Str.ascii_lower c) "*" = Ascii.eqb c "*")
  /\ (Ascii.eqb (Str.ascii_lower c) "?" = Ascii.eqb c "?").
Proof.
  destruct c as [b0 b1 b2 b3 b4 b5 b6 b7].
  destruct b0, b1, b2, b3, b4, b5, b6, b7; split; reflexivity.
Qed.

Lemma fnmatch_star (pat name : string) :
  Str.fnmatch (String "*" pat) name
  = Str.fnmatch pat name
    || match name with
       | EmptyString => false
       | String _ name' => Str.fnmatch (String "*" pat) name'
       end.
Proof. destruct name; reflexivity. Qed.

Lemma fnmatch_lower (pat : string) :
  forall name : string,
    Str.fnmatch pat name = true ->
    Str.fnmatch (Str.lower pat) (Str.lower name) = true.
Proof.
  induction pat as [|c pat IH]; intros name Hmatch.
  - simpl in *. apply String.eqb_eq in Hmatch. now subst name.
  - destruct (ascii_lower_meta c) as [Hstar Hquestion].
    destruct (Ascii.eqb_spec c "*") as [-> | Hns].
    + change (Str.lower (String "*" pat)) with (String "*" (Str.lower pat)).
      induction name as [|a name IHname].
      * rewrite fnmatch_star in Hmatch. rewrite orb_false_r in Hmatch.
        change (Str.lower "") with "". rewrite fnmatch_star, orb_false_r.
        now apply (IH "").
      * rewrite fnmatch_star in Hmatch. apply orb_true_iff in Hmatch.
        change (Str.lower (String a name))
          with (String (Str.ascii_lower a) (Str.lower name)).
        rewrite fnmatch_star. apply orb_true_iff.
        destruct Hmatch as [Hhere | Hlater].
        -- left. now apply (IH (String a name)).
        -- right. now apply IHname.
    + simpl. rewrite Hstar. simpl in Hmatch.
      destruct (Ascii.eqb c "*") eqn:Hc; [apply Ascii.eqb_eq in Hc; contradiction |].
      rewrite Hquestion.
      destruct (Ascii.eqb c "?").
      * destruct name as [|a name]; [discriminate | now apply IH].
      * destruct name as [|a name]; [discriminate |].
        apply andb_true_iff in Hmatch. destruct Hmatch as [Hac Hrest].
        apply Ascii.eqb_eq in Hac. subst a. simpl.
        rewrite Ascii.eqb_refl. now apply IH.
Qed.

Lemma patterns_lower :
  Forall (fun ext => Str.lower ("*" +:+ ext) = "*" +:+ ext
                     /\ Str.lower ("*" +:+ Str.upper ext) = "*" +:+ ext)
    (audio_exts ++ video_exts).
Proof. repeat constructor. Qed.

(** Whatever the scan finds has a name that, lower-cased, ends in one of
    the extensions. *)
Lemma discovered_matches_ignoring_case E (w : World) (dir : PurePath.t) (p : PurePath.t) :
  p ∈ discovered E w dir (audio_exts ++ video_exts) ->
  exists (entry ext : string),
    p = PurePath.child dir entry
    /\ entry ∈ scandir E w (PurePath.to_string dir)
    /\ ext ∈ audio_exts ++ video_exts
    /\ Str.fnmatch ("*" +:+ ext) (Str.lower entry) = true.
Proof.
  intros Hp. apply discovered_iff in Hp.
  destruct Hp as (entry & ext & -> & Hentry & Hext & Hmatch).
  exists entry, ext. repeat split; try assumption.
  pose proof patterns_lower as Hlower. rewrite Forall_forall in Hlower.
  destruct (Hlower ext Hext) as [Hl Hu].
  destruct Hmatch as [Hmatch | Hmatch]; apply fnmatch_lower in Hmatch.
  - now rewrite Hl in Hmatch.
  - now rewrite Hu in Hmatch.
Qed.

Example discovered_media :
  List.map PurePath.to_string
    (discovered Demo.env Demo.world0 (PurePath.of_string "/media/")
       (audio_exts ++ video_exts))
  = ["/media/talk.mp3"; "/media/b.wav"; "/media/CLIP.MP4"; "/media/film.mkv"].
Proof. reflexivity. Qed.

Lemma process_folder_nothing_found E model_name language (w : World) (folder_path : string) :
  folder_path ≠ "" ->
  discovered E w (PurePath.of_string folder_path) (audio_exts ++ video_exts) = [] ->
  process_folder E folder_path model_name language w
  = (Return ("No audio/video files found in folder", None), w).
Proof.
  intros Hfolder Hnone. unfold process_folder.
  destruct (String.eqb_spec folder_path "") as [Heq | _]; [contradiction |].
  unfold bind at 1. rewrite glob_loop_run, Hnone. reflexivity.
Qed.

(** A folder in which no name, lower-cased, ends in one of the extensions
    is reported as holding no audio or video file. *)
Lemma process_folder_no_match_ignoring_case E model_name language (w : World)
    (folder_path : string) :
  folder_path ≠ "" ->
  (forall entry ext : string,
      entry ∈ scandir E w (PurePath.to_string (PurePath.of_string folder_path)) ->
      ext ∈ audio_exts ++ video_exts ->
      Str.fnmatch ("*" +:+ ext) (Str.lower entry) = false) ->
  process_folder E folder_path model_name language w
  = (Return ("No audio/video files found in folder", None), w).
Proof.
  intros Hfolder Hnone. apply process_folder_nothing_found; [assumption |].
  destruct (discovered E w _ _) as [|p rest] eqn:Hd; [reflexivity |].
  assert (Hp : p ∈ discovered E w (PurePath.of_string folder_path)
                    (audio_exts ++ video_exts)) by (rewrite Hd; left).
  apply discovered_matches_ignoring_case in Hp.
  destruct Hp as (entry & ext & _ & Hentry & Hext & Hmatch).
  rewrite (Hnone entry ext Hentry Hext) in Hmatch. discriminate.
Qed.

(** C4.  With an empty list [process_files], and with a folder in which no
    entry matches any of the extension patterns [process_folder], return a
    message and no download path, and leave the world as it was: no file is
    created and no call is made. *)
Theorem empty_input_signalled E model_name language (w : World) (folder_path : string) :
  folder_path ≠ "" ->
  (forall entry ext : string,
      entry ∈ scandir E w (PurePath.to_string (PurePath.of_string folder_path)) ->
      ext ∈ audio_exts ++ video_exts ->
      Str.fnmatch ("*" +:+ ext) entry = false
      /\ Str.fnmatch ("*" +:+ Str.upper ext) entry = false) ->
  process_files E [] model_name language w = (Return ("No files uploaded", None), w)
  /\ process_folder E folder_path model_name language w
     = (Return ("No audio/video files found in folder", None), w).
Proof.
  intros Hfolder Hnone. split; [reflexivity |].
  apply process_folder_nothing_found; [assumption |].
  now apply discovered_nil.
Qed.

Lemma empty_input_signalled_witness :
  process_files Demo.env [] "base" "auto" Demo.world0
  = (Return ("No files uploaded", None), Demo.world0)
  /\ process_folder Demo.env "/docs" "base" "auto" Demo.world0
     = (Return ("No audio/video files found in folder", None), Demo.world0).
Proof.
  apply (empty_input_signalled Demo.env "base" "auto" Demo.world0 "/docs").
  - discriminate.
  - intros entry ext Hentry Hext. revert ext Hext. apply Forall_forall.
    revert entry Hentry. apply Forall_forall.
    vm_compute. repeat constructor.
Defined.

(** C3.  The scan looks for each extension as written and in upper case
    only.  In a folder whose single entry is [clip.Mp4] nothing is found and
    [process_folder] reports that the folder holds no audio or video file,
    although [transcribe_file] classifies that very path as a video. *)
Theorem folder_scan_misses_mixed_case :
  scandir Demo.env Demo.world0 "/mixed" = ["clip.Mp4"]
  /\ discovered Demo.env Demo.world0 (PurePath.of_string "/mixed")
       (audio_exts ++ video_exts) = []
  /\ process_folder Demo.env "/mixed" "base" "auto" Demo.world0
     = (Return ("No audio/video files found in folder", None), Demo.world0)
  /\ Str.mem (Str.lower (PurePath.suffix (PurePath.of_string "/mixed/clip.Mp4")))
       video_exts = true.
Proof. repeat split; reflexivity. Qed.

(** ** One item: the equations of [transcribe_file] *)

Lemma transcribe_file_load_raises E file_path model_name language w msg :
  whisper_load_model E w model_name = Raise msg ->
  transcribe_file E file_path model_name language w
  = (Raise msg, logged w (EvLoadModel model_name)).
Proof.
  intros Hload. unfold transcribe_file, bind at 1, load_model. now rewrite Hload.
Qed.

Lemma transcribe_file_audio E file_path model_name language w model :
  whisper_load_model E w model_name = Return model ->
  Str.mem (Str.lower (PurePath.suffix (PurePath.of_string file_path))) video_exts = false ->
  transcribe_file E file_path model_name language w
  = let w0 := logged w (EvLoadModel model_name) in
    match model_transcribe E w0 model file_path (hint_of language) with
    | Return text => (Return text, logged w0 (EvTranscribe file_path (hint_of language)))
    | Raise msg => (Raise msg, logged w0 (EvTranscribe file_path (hint_of language)))
    end.
Proof.
  intros Hload Hext.
  unfold transcribe_file, bind at 1, load_model. rewrite Hload, Hext.
  unfold bind, ret, transcribe, hint_of. cbv zeta.
  destruct (model_transcribe E _ model file_path _); [| reflexivity].
  now rewrite String.eqb_refl.
Qed.

Lemma transcribe_file_video E file_path model_name language w model :
  whisper_load_model E w model_name = Return model ->
  Str.mem (Str.lower (PurePath.suffix (PurePath.of_string file_path))) video_exts = true ->
  transcribe_file E file_path model_name language w
  = let w0 := logged w (EvLoadModel model_name) in
    let temp_audio := mkstemp_name E w0 ".wav" in
    let w1 := mkWorld (<[temp_audio := ""]> (fs w0))
                      (trace w0 ++ [EvNamedTemporaryFile temp_audio]) in
    let cmd := ffmpeg_cmd file_path temp_audio in
    match subprocess_run E w1 cmd with
    | Raise msg => (Raise msg, logged w1 (EvSubprocessRun cmd))
    | Return (returncode, fs') =>
        let w2 := mkWorld fs' (trace w1 ++ [EvSubprocessRun cmd]) in
        let w3 := logged w2 (EvTranscribe temp_audio (hint_of language)) in
        match model_transcribe E w2 model temp_audio (hint_of language) with
        | Raise msg => (Raise msg, w3)
        | Return text =>
            if String.eqb temp_audio file_path then (Return text, w3)
            else
              match fs' !! temp_audio with
              | Some _ =>
                  (Return text,
                   mkWorld (delete temp_audio fs') (trace w3 ++ [EvUnlink temp_audio]))
              | None =>
                  (Raise ("[Errno 2] No such file or directory: '" +:+ temp_audio +:+ "'"),
                   logged w3 (EvUnlink temp_audio))
              end
        end
    end.
Proof.
  intros Hload Hext.
  unfold transcribe_file, bind at 1, load_model. rewrite Hload, Hext.
  unfold bind at 1, extract_audio, bind at 1, NamedTemporaryFile, bind at 1, run_subprocess.
  cbv zeta.
  destruct (subprocess_run E _ _) as [[returncode fs'] | msg]; [| reflexivity].
  unfold ret at 1. unfold bind at 1, transcribe, hint_of.
  destruct (model_transcribe E _ model _ _) as [text | msg]; [| reflexivity].
  unfold bind, os_unlink, ret, logged. simpl.
  destruct (String.eqb _ file_path); simpl; [reflexivity |].
  destruct (fs' !! _); reflexivity.
Qed.

Lemma is_video_mem (file_path : string) :
  is_video file_path
  <-> Str.mem (Str.lower (PurePath.suffix (PurePath.of_string file_path))) video_exts = true.
Proof. unfold is_video. symmetry. apply mem_elem_of. Qed.

Lemma not_is_video_mem (file_path : string) :
  ~ is_video file_path
  <-> Str.mem (Str.lower (PurePath.suffix (PurePath.of_string file_path))) video_exts = false.
Proof. rewrite is_video_mem. apply not_true_iff_false. Qed.

Lemma emitted_logged (w : World) (e : Event) : emitted w (logged w e) [e].
Proof. reflexivity. Qed.

Ltac trace_eq := unfold emitted, logged; simpl; rewrite <- ?app_assoc; reflexivity.

Lemma hint_of_spec (language : string) (h : option string) :
  h = hint_of language ->
  (h = None <-> language = "auto") /\ (language ≠ "auto" -> h = Some language).
Proof.
  intros ->. unfold hint_of.
  destruct (String.eqb_spec language "auto") as [Heq | Hne].
  - split; [tauto | contradiction].
  - split; [split; [discriminate | contradiction] | reflexivity].
Qed.

(** The equations of [transcribe_file_with]. *)

Lemma transcribe_file_with_ascii_lower E file_path model_name language :
  transcribe_file_with Str.lower E file_path model_name language
  = transcribe_file E file_path model_name language.
Proof. reflexivity. Qed.






(** Python's lower-casing sends the Kelvin-sign extension through
    extraction; the ASCII instance does not lower-case the Kelvin sign. *)
Example kelvin_extension :
  Str.mem (Demo.lower_kelvin (PurePath.suffix (PurePath.of_string Demo.kelvin_clip)))
    video_exts = true
  /\ Str.mem (Str.lower (PurePath.suffix (PurePath.of_string Demo.kelvin_clip)))
       video_exts = false.
Proof. split; reflexivity. Qed.

(** ** Events of one item and of a batch *)

Ltac in_events H :=
  apply list_elem_of_In in H; simpl in H;
  repeat (destruct H as [H | H]; [try discriminate H |]); try contradiction.

(** The events [transcribe_file] appends, by cases. *)
Lemma transcribe_file_events E file_path model_name language w :
  let r := transcribe_file E file_path model_name language w in
  let temp_audio := mkstemp_name E (logged w (EvLoadModel model_name)) ".wav" in
  let extraction :=
    [EvNamedTemporaryFile temp_audio; EvSubprocessRun (ffmpeg_cmd file_path temp_audio)] in
  exists evs : list Event,
    emitted w (snd r) evs
    /\ ((evs = [EvLoadModel model_name] /\ exists msg, fst r = Raise msg)
        \/ (~ is_video file_path
            /\ evs = [EvLoadModel model_name; EvTranscribe file_path (hint_of language)])
        \/ (is_video file_path
            /\ evs = EvLoadModel model_name :: extraction
            /\ exists msg, fst r = Raise msg)
        \/ (is_video file_path
            /\ evs = EvLoadModel model_name :: extraction
                     ++ [EvTranscribe temp_audio (hint_of language)]
            /\ ((exists msg, fst r = Raise msg) \/ temp_audio = file_path))
        \/ (is_video file_path
            /\ temp_audio ≠ file_path
            /\ evs = EvLoadModel model_name :: extraction
                     ++ [EvTranscribe temp_audio (hint_of language); EvUnlink temp_audio])).
Proof.
  intros r temp_audio extraction. subst r extraction.
  destruct (whisper_load_model E w model_name) as [model | msg] eqn:Hload.
  2:{ rewrite (transcribe_file_load_raises _ _ _ _ _ _ Hload).
      eexists. split; [apply emitted_logged |]. left. eauto. }
  destruct (Str.mem (Str.lower (PurePath.suffix (PurePath.of_string file_path))) video_exts)
    eqn:Hext.
  - pose proof (proj2 (is_video_mem file_path) Hext) as Hvideo.
    rewrite (transcribe_file_video _ _ _ _ _ _ Hload Hext). cbv zeta. fold temp_audio.
    destruct (subprocess_run E _ _) as [[returncode fs'] | msg].
    + destruct (model_transcribe E _ model _ _) as [text | msg].
      * destruct (String.eqb_spec temp_audio file_path) as [Heq | Hne].
        -- eexists. split; [trace_eq |]. do 3 right. left. auto.
        -- destruct (fs' !! temp_audio); eexists;
             (split; [trace_eq |]); do 4 right; auto.
      * eexists. split; [trace_eq |]. do 3 right. left. eauto.
    + eexists. split; [trace_eq |]. do 2 right. left. eauto.
  - pose proof (proj2 (not_is_video_mem file_path) Hext) as Haudio.
    rewrite (transcribe_file_audio _ _ _ _ _ _ Hload Hext). cbv zeta.
    destruct (model_transcribe E _ model _ _); eexists;
      (split; [trace_eq |]); right; left; auto.
Qed.

(** A property of the events of every item holds of the events of a batch. *)
Lemma batch_run_events E model_name language (P : Event -> Prop) :
  (forall file w, exists evs,
      emitted w (snd (transcribe_file E file model_name language w)) evs /\ Forall P evs) ->
  forall w files os w',
    batch_run E model_name language w files os w' ->
    exists evs, emitted w w' evs /\ Forall P evs.
Proof.
  intros Hitem w files os w'. induction 1 as [w | w w1 w2 file rest o os Hrun _ IH].
  - exists []. split; [unfold emitted; now rewrite app_nil_r | constructor].
  - destruct (Hitem file w) as (evs1 & Hem1 & HP1). rewrite Hrun in Hem1. simpl in Hem1.
    destruct IH as (evs2 & Hem2 & HP2).
    exists (evs1 ++ evs2). split.
    + unfold emitted in *. now rewrite Hem2, Hem1, app_assoc.
    + now apply Forall_app.
Qed.

Lemma process_files_events E model_name language (P : Event -> Prop) :
  (forall file w, exists evs,
      emitted w (snd (transcribe_file E file model_name language w)) evs /\ Forall P evs) ->
  (forall name, P (EvNamedTemporaryFile name)) ->
  (forall name text, P (EvWrite name text)) ->
  forall files w, exists evs,
    emitted w (snd (process_files E files model_name language w)) evs /\ Forall P evs.
Proof.
  intros Hitem Htemp Hwrite [|file rest] w.
  - exists []. split; [unfold emitted; simpl; now rewrite app_nil_r | constructor].
  - destruct (process_files_run E model_name language file rest w)
      as (os & w1 & Hbatch & Hrun).
    destruct (batch_run_events _ _ _ P Hitem _ _ _ _ Hbatch) as (evs & Hem & HP).
    rewrite Hrun. cbv zeta. simpl. eexists (evs ++ [_; _]). split.
    + unfold emitted in *. simpl. now rewrite Hem, app_assoc.
    + apply Forall_app. split; [assumption |]. repeat constructor; auto.
Qed.

(** C8.  Every recognition call of an item, and of a whole batch, carries
    the hint [None] exactly when the selected language is ["auto"], and the
    selected language otherwise; an item that returns a text has made such
    a call. *)
Theorem language_hint_passed E model_name language :
  (forall file_path w,
      let r := transcribe_file E file_path model_name language w in
      exists evs : list Event,
        emitted w (snd r) evs
        /\ (forall a h, EvTranscribe a h ∈ evs ->
              (h = None <-> language = "auto")
              /\ (language ≠ "auto" -> h = Some language))
        /\ match fst r with
           | Return _ => exists a h, EvTranscribe a h ∈ evs
           | Raise _ => True
           end)
  /\ (forall files w,
        exists evs : list Event,
          emitted w (snd (process_files E files model_name language w)) evs
          /\ (forall a h, EvTranscribe a h ∈ evs ->
                (h = None <-> language = "auto")
                /\ (language ≠ "auto" -> h = Some language))).
Proof.
  assert (Hitem : forall file_path w,
             let r := transcribe_file E file_path model_name language w in
             exists evs : list Event,
               emitted w (snd r) evs
               /\ (forall a h, EvTranscribe a h ∈ evs -> h = hint_of language)
               /\ match fst r with
                  | Return _ => exists a h, EvTranscribe a h ∈ evs
                  | Raise _ => True
                  end).
  { intros file_path w r.
    destruct (transcribe_file_events E file_path model_name language w)
      as (evs & Hem & Hcases).
    fold r in Hem, Hcases. exists evs. split; [exact Hem |].
    destruct Hcases as [(-> & msg & Hr) | [(_ & ->) | [(_ & -> & msg & Hr) |
                        [(_ & -> & Hr) | (_ & _ & ->)]]]].
    - rewrite Hr. split; [| exact I]. intros a h Hin. in_events Hin.
    - split.
      + intros a h Hin. in_events Hin. congruence.
      + destruct (fst r); [| exact I]. do 2 eexists. apply list_elem_of_In. simpl. eauto.
    - rewrite Hr. split; [| exact I]. intros a h Hin. in_events Hin.
    - split.
      + intros a h Hin. in_events Hin. congruence.
      + destruct (fst r); [| exact I]. do 2 eexists. apply list_elem_of_In. simpl. eauto 6.
    - split.
      + intros a h Hin. in_events Hin. congruence.
      + destruct (fst r); [| exact I]. do 2 eexists. apply list_elem_of_In. simpl. eauto 6. }
  split.
  - intros file_path w r. destruct (Hitem file_path w) as (evs & Hem & Hhint & Hsome).
    exists evs. split; [exact Hem |]. split; [| exact Hsome].
    intros a h Hin. apply hint_of_spec. eauto.
  - intros files w.
    destruct (process_files_events E model_name language
                (fun ev => forall a h, ev = EvTranscribe a h -> h = hint_of language))
      with (files := files) (w := w) as (evs & Hem & HP).
    + intros file w0. destruct (Hitem file w0) as (evs & Hem & Hhint & _).
      exists evs. split; [exact Hem |]. apply Forall_forall.
      intros ev Hin a h ->. eauto.
    + discriminate.
    + discriminate.
    + exists evs. split; [exact Hem |]. intros a h Hin. apply hint_of_spec.
      rewrite Forall_forall in HP. eauto.
Qed.

Example hints_of_a_run :
  trace (snd (process_files Demo.env ["/up/speech.wav"] "base" "auto" Demo.world0))
  = [EvLoadModel "base"; EvTranscribe "/up/speech.wav" None;
     EvNamedTemporaryFile "/tmp/tmpxxxxxxxxxxxxxxx.txt";
     EvWrite "/tmp/tmpxxxxxxxxxxxxxxx.txt"
       (unlines ["=== speech.wav ==="; " words of hello"])]
  /\ trace (snd (transcribe_file Demo.env "/up/speech.wav" "base" "en" Demo.world0))
     = [EvLoadModel "base"; EvTranscribe "/up/speech.wav" (Some "en")].
Proof. split; vm_compute; reflexivity. Qed.

Lemma language_hint_passed_witness :
  exists evs : list Event,
    emitted Demo.world0
      (snd (transcribe_file Demo.env "/up/speech.wav" "base" "en" Demo.world0)) evs
    /\ (exists a h, EvTranscribe a h ∈ evs)
    /\ forall a h, EvTranscribe a h ∈ evs -> h = Some "en".
Proof.
  destruct (proj1 (language_hint_passed Demo.env "base" "en") "/up/speech.wav" Demo.world0)
    as (evs & Hem & Hhint & Hsome).
  exists evs. split; [exact Hem |]. split; [exact Hsome |].
  intros a h Hin. apply (Hhint a h Hin). discriminate.
Defined.

(** ** Extraction *)

(** C9.  Whatever exit status the completed ffmpeg process reports,
    [extract_audio] returns the path of the temporary file and raises
    nothing; [transcribe_file] goes on to recognition on that file, and when
    recognition raises, that exception is the outcome of the item. *)
Theorem extraction_status_not_inspected E video_path model_name language w
    (model : string) (returncode : Z) (fs' : gmap string string) (msg : string) :
  let w0 := logged w (EvLoadModel model_name) in
  let temp_audio := mkstemp_name E w0 ".wav" in
  let w1 := mkWorld (<[temp_audio := ""]> (fs w0))
                    (trace w0 ++ [EvNamedTemporaryFile temp_audio]) in
  let cmd := ffmpeg_cmd video_path temp_audio in
  let w2 := mkWorld fs' (trace w1 ++ [EvSubprocessRun cmd]) in
  subprocess_run E w1 cmd = Return (returncode, fs') ->
  extract_audio E video_path w0 = (Return temp_audio, w2)
  /\ (whisper_load_model E w model_name = Return model ->
      is_video video_path ->
      model_transcribe E w2 model temp_audio (hint_of language) = Raise msg ->
      transcribe_file E video_path model_name language w
      = (Raise msg, logged w2 (EvTranscribe temp_audio (hint_of language)))).
Proof.
  intros w0 temp_audio w1 cmd w2 Hrun. split.
  - unfold extract_audio, bind at 1, NamedTemporaryFile.
    fold temp_audio. fold w1. fold cmd.
    unfold bind, run_subprocess. rewrite Hrun. reflexivity.
  - intros Hload Hvideo Hraise. apply is_video_mem in Hvideo.
    rewrite (transcribe_file_video _ _ _ _ _ _ Hload Hvideo). cbv zeta.
    fold w0. fold temp_audio. fold w1. fold cmd. rewrite Hrun.
    fold w2. now rewrite Hraise.
Qed.

Lemma extraction_status_not_inspected_witness :
  let w0 := logged Demo.world0 (EvLoadModel "base") in
  subprocess_run Demo.env
    (mkWorld (<["/tmp/tmpxxxxxxxxxxxxxxx.wav" := ""]> (fs w0))
             (trace w0 ++ [EvNamedTemporaryFile "/tmp/tmpxxxxxxxxxxxxxxx.wav"]))
    (ffmpeg_cmd "/up/broken.mp4" "/tmp/tmpxxxxxxxxxxxxxxx.wav")
  = Return (1%Z, <["/tmp/tmpxxxxxxxxxxxxxxx.wav" := ""]> (fs w0))
  /\ fst (extract_audio Demo.env "/up/broken.mp4" w0) = Return "/tmp/tmpxxxxxxxxxxxxxxx.wav"
  /\ fst (transcribe_file Demo.env "/up/broken.mp4" "base" "auto" Demo.world0)
     = Raise "Failed to load audio: empty".
Proof.
  intros w0.
  assert (Hrun :
    subprocess_run Demo.env
      (mkWorld (<["/tmp/tmpxxxxxxxxxxxxxxx.wav" := ""]> (fs w0))
               (trace w0 ++ [EvNamedTemporaryFile "/tmp/tmpxxxxxxxxxxxxxxx.wav"]))
      (ffmpeg_cmd "/up/broken.mp4" "/tmp/tmpxxxxxxxxxxxxxxx.wav")
    = Return (1%Z, <["/tmp/tmpxxxxxxxxxxxxxxx.wav" := ""]> (fs w0)))
    by reflexivity.
  split; [exact Hrun |].
  destruct (extraction_status_not_inspected Demo.env "/up/broken.mp4" "base" "auto"
              Demo.world0 "base" 1%Z (<["/tmp/tmpxxxxxxxxxxxxxxx.wav" := ""]> (fs w0))
              "Failed to load audio: empty" Hrun) as [Hextract Hitem].
  split.
  - exact (f_equal fst Hextract).
  - rewrite Hitem; [reflexivity | reflexivity | apply is_video_mem; reflexivity | reflexivity].
Defined.

(** ** Temporary files *)

(** When recognition raises, the file system is left as ffmpeg left it: the
    temporary file is not removed. *)
Lemma temp_file_left_when_recognition_raises E file_path model_name language w
    (model : string) (returncode : Z) (fs' : gmap string string) (msg : string) :
  let w0 := logged w (EvLoadModel model_name) in
  let temp_audio := mkstemp_name E w0 ".wav" in
  let w1 := mkWorld (<[temp_audio := ""]> (fs w0))
                    (trace w0 ++ [EvNamedTemporaryFile temp_audio]) in
  let cmd := ffmpeg_cmd file_path temp_audio in
  let w2 := mkWorld fs' (trace w1 ++ [EvSubprocessRun cmd]) in
  whisper_load_model E w model_name = Return model ->
  is_video file_path ->
  subprocess_run E w1 cmd = Return (returncode, fs') ->
  model_transcribe E w2 model temp_audio (hint_of language) = Raise msg ->
  fs (snd (transcribe_file E file_path model_name language w)) = fs'.
Proof.
  intros w0 temp_audio w1 cmd w2 Hload Hvideo Hrun Hraise.
  apply is_video_mem in Hvideo.
  rewrite (transcribe_file_video _ _ _ _ _ _ Hload Hvideo). cbv zeta.
  fold w0. fold temp_audio. fold w1. fold cmd. rewrite Hrun.
  fold w2. now rewrite Hraise.
Qed.

(** When the item returns a text, the temporary file is gone. *)
Lemma temp_file_removed_on_success E file_path model_name language w (text : string) :
  let temp_audio := mkstemp_name E (logged w (EvLoadModel model_name)) ".wav" in
  is_video file_path ->
  temp_audio ≠ file_path ->
  fst (transcribe_file E file_path model_name language w) = Return text ->
  fs (snd (transcribe_file E file_path model_name language w)) !! temp_audio = None.
Proof.
  intros temp_audio Hvideo Hne. apply is_video_mem in Hvideo.
  destruct (whisper_load_model E w model_name) as [model | msg] eqn:Hload.
  2:{ rewrite (transcribe_file_load_raises _ _ _ _ _ _ Hload). discriminate. }
  rewrite (transcribe_file_video _ _ _ _ _ _ Hload Hvideo). cbv zeta. fold temp_audio.
  destruct (subprocess_run E _ _) as [[returncode fs'] | msg]; [| discriminate].
  destruct (model_transcribe E _ model _ _) as [text' | msg]; [| discriminate].
  destruct (String.eqb_spec temp_audio file_path) as [Heq | _]; [contradiction |].
  destruct (fs' !! temp_audio) eqn:Hlook; [| discriminate].
  intros _. simpl. apply lookup_delete_eq.
Qed.

(** C2.  A video whose recognition raises leaves its temporary waveform on
    disk: for the upload [static.mp4] the report carries the error, the
    temporary file was created, is never unlinked, and still exists when
    [process_files] returns. *)
Theorem temp_waveform_left_after_failure :
  let '(r, w') := process_files Demo.env ["/up/static.mp4"] "base" "auto" Demo.world0 in
  let temp_audio := "/tmp/tmpxxxxxxxxxxxxxxx.wav" in
  (exists temp_output,
      r = Return (unlines ["=== static.mp4 ==="; "Error: cannot decode"], Some temp_output))
  /\ EvNamedTemporaryFile temp_audio ∈ trace w'
  /\ EvTranscribe temp_audio None ∈ trace w'
  /\ ~ EvUnlink temp_audio ∈ trace w'
  /\ fs w' !! temp_audio = Some "pcm:static".
Proof.
  vm_compute. split; [eauto |]. split; [| split; [| split]].
  - apply list_elem_of_In. simpl. auto.
  - apply list_elem_of_In. simpl. auto.
  - intros Hin. in_events Hin.
  - reflexivity.
Qed.

Example temp_waveform_removed_after_success :
  let w' := snd (process_files Demo.env ["/up/clip.mp4"] "base" "auto" Demo.world0) in
  EvUnlink "/tmp/tmpxxxxxxxxxxxxxxx.wav" ∈ trace w'
  /\ fs w' !! "/tmp/tmpxxxxxxxxxxxxxxx.wav" = None.
Proof. vm_compute. split; [apply list_elem_of_In; simpl; auto 10 | reflexivity]. Qed.

(** ** Files that exist before a run *)

Section Frame.

Context (E : Env).
Hypothesis Hfresh : fresh_names E.
Hypothesis Hconfined : writes_only_output E.

Lemma fresh_name_differs (w : World) (sfx p c : string) :
  fs w !! p = Some c -> p ≠ mkstemp_name E w sfx.
Proof. intros Hp ->. rewrite Hfresh in Hp. discriminate. Qed.

Lemma transcribe_file_preserves file_path model_name language (w : World) (p c : string) :
  fs w !! p = Some c ->
  fs (snd (transcribe_file E file_path model_name language w)) !! p = Some c.
Proof.
  intros Hp.
  destruct (whisper_load_model E w model_name) as [model | msg] eqn:Hload.
  2:{ now rewrite (transcribe_file_load_raises _ _ _ _ _ _ Hload). }
  destruct (Str.mem (Str.lower (PurePath.suffix (PurePath.of_string file_path))) video_exts)
    eqn:Hext.
  - rewrite (transcribe_file_video _ _ _ _ _ _ Hload Hext). cbv zeta.
    set (w0 := logged w (EvLoadModel model_name)).
    set (temp_audio := mkstemp_name E w0 ".wav").
    assert (Hne : p ≠ temp_audio) by (apply (fresh_name_differs w0 ".wav" p c); exact Hp).
    set (w1 := mkWorld (<[temp_audio := ""]> (fs w0)) _).
    assert (Hp1 : fs w1 !! p = Some c) by (simpl; now rewrite lookup_insert_ne).
    destruct (subprocess_run E w1 _) as [[returncode fs'] | msg] eqn:Hrun; [| exact Hp1].
    assert (Hp2 : fs' !! p = Some c).
    { rewrite (Hconfined _ _ _ _ Hrun p); [exact Hp1 | exact Hne]. }
    destruct (model_transcribe E _ model _ _) as [text | msg]; [| exact Hp2].
    destruct (String.eqb temp_audio file_path); [exact Hp2 |].
    destruct (fs' !! temp_audio); [| exact Hp2].
    simpl. now rewrite lookup_delete_ne.
  - rewrite (transcribe_file_audio _ _ _ _ _ _ Hload Hext). cbv zeta.
    destruct (model_transcribe E _ model _ _); exact Hp.
Qed.

Lemma batch_run_preserves model_name language w files os w' (p c : string) :
  batch_run E model_name language w files os w' ->
  fs w !! p = Some c -> fs w' !! p = Some c.
Proof.
  induction 1 as [w | w w1 w2 file rest o os Hrun _ IH]; intros Hp; [exact Hp |].
  apply IH. pose proof (transcribe_file_preserves file model_name language w p c Hp) as H1.
  now rewrite Hrun in H1.
Qed.

Lemma process_files_preserves model_name language files (w : World) (p c : string) :
  fs w !! p = Some c ->
  fs (snd (process_files E files model_name language w)) !! p = Some c.
Proof.
  intros Hp. destruct files as [|file rest]; [exact Hp |].
  destruct (process_files_run E model_name language file rest w)
    as (os & w1 & Hbatch & Hrun).
  rewrite Hrun. cbv zeta. simpl.
  pose proof (batch_run_preserves _ _ _ _ _ _ p c Hbatch Hp) as Hp1.
  rewrite lookup_insert_ne; [exact Hp1 |].
  apply not_eq_sym. now apply (fresh_name_differs w1 ".txt" p c).
Qed.

End Frame.

(** The demo environment meets both assumptions. *)

Lemma pad_length (n : nat) : String.length (Demo.pad n) = n.
Proof. induction n as [|n IH]; simpl; congruence. Qed.

Lemma longest_bound (m : gmap string string) (k v : string) :
  m !! k = Some v -> (String.length k <= Demo.longest m)%nat.
Proof.
  intros Hk. apply elem_of_map_to_list in Hk. unfold Demo.longest.
  induction (map_to_list m) as [|kv l IH]; [inversion Hk |].
  simpl. apply elem_of_cons in Hk. destruct Hk as [<- | Hk]; simpl; [lia |].
  specialize (IH Hk). lia.
Qed.

Lemma demo_fresh : fresh_names Demo.env.
Proof.
  intros w sfx. simpl. destruct (fs w !! Demo.tmp_name w sfx) as [v|] eqn:Hk; [| reflexivity].
  apply longest_bound in Hk. unfold Demo.tmp_name in Hk.
  rewrite !length_append, pad_length in Hk. simpl in Hk. lia.
Qed.

Lemma demo_confined : writes_only_output Demo.env.
Proof.
  intros w cmd returncode fs' Hrun p Hp. simpl in Hrun. unfold Demo.ffmpeg in Hrun.
  destruct cmd as [|prog [|a [|video_path rest]]]; try discriminate.
  destruct (negb (String.eqb prog "ffmpeg")); [discriminate |].
  destruct (fs w !! video_path) as [content|].
  - destruct (String.eqb content "garbage").
    + now inversion Hrun.
    + inversion Hrun; subst. now rewrite lookup_insert_ne.
  - now inversion Hrun.
Qed.

(** C10.  The only unlink [transcribe_file] performs is on a path different
    from the input path, for a video item, and on the temporary file this
    very call created; an item that is not a video unlinks nothing, and no
    item writes a file.  With temporary names that are not in use and an
    ffmpeg that writes nothing but its output file, every file that exists
    before [process_files] starts exists afterwards with the same content. *)
Theorem input_files_never_deleted E model_name language :
  (forall file_path w,
      exists evs : list Event,
        emitted w (snd (transcribe_file E file_path model_name language w)) evs
        /\ (forall q, EvUnlink q ∈ evs ->
              q ≠ file_path /\ is_video file_path /\ EvNamedTemporaryFile q ∈ evs)
        /\ (forall q text, ~ EvWrite q text ∈ evs))
  /\ (fresh_names E -> writes_only_output E ->
      forall files (w : World) (p c : string),
        fs w !! p = Some c ->
        fs (snd (process_files E files model_name language w)) !! p = Some c).
Proof.
  split.
  - intros file_path w.
    destruct (transcribe_file_events E file_path model_name language w)
      as (evs & Hem & Hcases).
    exists evs. split; [exact Hem |].
    destruct Hcases as [(-> & _) | [(_ & ->) | [(_ & -> & _) |
                        [(_ & -> & _) | (Hvideo & Hne & ->)]]]];
      (split; [intros q Hin | intros q text Hin]); in_events Hin.
    injection Hin as <-. split; [exact Hne |]. split; [exact Hvideo |].
    apply list_elem_of_In. simpl. auto.
  - intros Hfresh Hconfined files w p c Hp.
    now apply process_files_preserves.
Qed.

Lemma input_files_never_deleted_witness :
  fs (snd (process_files Demo.env ["/up/clip.mp4"; "/up/static.mp4"; "/up/speech.wav"]
             "base" "auto" Demo.world0)) !! "/up/clip.mp4" = Some "video".
Proof.
  apply (proj2 (input_files_never_deleted Demo.env "base" "auto") demo_fresh demo_confined).
  reflexivity.
Defined.

(** * Further properties of the pipeline *)

(** ** The loop of [process_folder] *)

Lemma paths_loop_batch E model_name language (files : list PurePath.t) :
  forall (results : list string) (w : World),
  exists (os : list (Outcome string)) (w1 : World),
    batch_run E model_name language w (List.map PurePath.to_string files) os w1
    /\ paths_loop E files model_name language results w
       = (Return (results ++ zip_with folder_entry_of files os), w1).
Proof.
  induction files as [|file rest IH]; intros results w.
  - exists [], w. split; [constructor |]. simpl. now rewrite app_nil_r.
  - simpl. unfold bind at 1. unfold try_except, bind at 1.
    destruct (transcribe_file E (PurePath.to_string file) model_name language w)
      as [[text | msg] w1] eqn:Hrun.
    + destruct (IH (results ++ [entry_ok (PurePath.name file) text]) w1)
        as (os & w2 & Hbatch & Hloop).
      exists (Return text :: os), w2. split; [econstructor; eassumption |].
      unfold ret at 1. rewrite Hloop. simpl. now rewrite <- app_assoc.
    + destruct (IH (results ++ [entry_error (PurePath.name file) msg]) w1)
        as (os & w2 & Hbatch & Hloop).
      exists (Raise msg :: os), w2. split; [econstructor; eassumption |].
      unfold ret at 1. rewrite Hloop. simpl. now rewrite <- app_assoc.
Qed.

Lemma process_folder_run E model_name language (folder_path : string) (w : World)
    (p : PurePath.t) (ps : list PurePath.t) :
  folder_path ≠ "" ->
  discovered E w (PurePath.of_string folder_path) (audio_exts ++ video_exts) = p :: ps ->
  exists (os : list (Outcome string)) (w1 : World),
    batch_run E model_name language w (List.map PurePath.to_string (p :: ps)) os w1
    /\ process_folder E folder_path model_name language w
       = (let full_text := Str.join Str.nl (zip_with folder_entry_of (p :: ps) os) in
          let temp_output := mkstemp_name E w1 ".txt" in
          (Return (full_text, Some temp_output),
           mkWorld (<[temp_output := full_text]> (fs w1))
                   (trace w1 ++ [EvNamedTemporaryFile temp_output;
                                 EvWrite temp_output full_text]))).
Proof.
  intros Hfolder Hfound.
  destruct (paths_loop_batch E model_name language (p :: ps) [] w)
    as (os & w1 & Hbatch & Hloop).
  exists os, w1. split; [assumption |].
  unfold process_folder.
  destruct (String.eqb_spec folder_path "") as [Heq | _]; [contradiction |].
  unfold bind at 1. rewrite glob_loop_run, Hfound.
  change ([] ++ p :: ps) with (p :: ps). cbv iota.
  unfold bind at 1. rewrite Hloop.
  unfold bind at 1. rewrite save_report_run. reflexivity.
Qed.

(** ** Paths of directory entries *)

Lemma split_from_nonempty (c : ascii) (s : string) :
  forall cur, Str.split_from c cur s ≠ [].
Proof.
  induction s as [|a s IH]; intros cur; simpl; [discriminate |].
  destruct (Ascii.eqb a c); [discriminate | apply IH].
Qed.

Lemma split_from_single (c : ascii) (s : string) :
  forall cur x, Str.split_from c cur s = [x] -> x = cur +:+ s.
Proof.
  induction s as [|a s IH]; intros cur x Hsplit; simpl in Hsplit.
  - injection Hsplit as <-. now rewrite append_nil_r.
  - destruct (Ascii.eqb a c).
    + injection Hsplit as _ Hrest. now apply split_from_nonempty in Hrest.
    + apply IH in Hsplit. subst x. now rewrite append_assoc.
Qed.

Lemma split_from_app (c : ascii) (a b : string) :
  forall cur,
    Str.split_from c cur (a +:+ String c b)
    = Str.split_from c cur a ++ Str.split_from c "" b.
Proof.
  induction a as [|x a IH]; intros cur.
  - rewrite append_nil_l. simpl. now rewrite Ascii.eqb_refl.
  - rewrite append_cons. simpl. destruct (Ascii.eqb x c).
    + now rewrite IH.
    + apply IH.
Qed.

Lemma entry_name_ok_split (entry : string) :
  entry_name_ok entry = true ->
  PurePath.keep_part entry = true /\ Str.split "/" entry = [entry].
Proof.
  unfold entry_name_ok. intros Hok. apply andb_true_iff in Hok.
  destruct Hok as [Hkeep Hsplit]. split; [exact Hkeep |].
  destruct (Str.split "/" entry) as [|x [|y l]] eqn:Hs; try discriminate.
  unfold Str.split in Hs. apply split_from_single in Hs. now subst x.
Qed.

Lemma join_snoc (sep x : string) (l : list string) :
  l ≠ [] -> Str.join sep (l ++ [x]) = Str.join sep l +:+ sep +:+ x.
Proof.
  induction l as [|y l IH]; intros Hne; [contradiction |].
  destruct l as [|z l]; [reflexivity |].
  change (Str.join sep ((y :: z :: l) ++ [x]))
    with (y +:+ sep +:+ Str.join sep ((z :: l) ++ [x])).
  rewrite IH by discriminate.
  change (Str.join sep (y :: z :: l)) with (y +:+ sep +:+ Str.join sep (z :: l)).
  now rewrite !append_assoc.
Qed.

Lemma posix_root_cases (s : string) :
  PurePath.posix_root s = "" \/ PurePath.posix_root s = "/" \/ PurePath.posix_root s = "//".
Proof.
  unfold PurePath.posix_root.
  destruct (String.prefix "///" s), (String.prefix "//" s), (String.prefix "/" s); auto.
Qed.

(** The last component of a string that ends in a separator-free entry. *)
Lemma name_of_string_entry (pre entry : string) :
  entry_name_ok entry = true ->
  pre = "" \/ (exists pre', pre = pre' +:+ "/") ->
  PurePath.name (PurePath.of_string (pre +:+ entry)) = entry.
Proof.
  intros Hok Hpre. apply entry_name_ok_split in Hok. destruct Hok as [Hkeep Hsplit].
  unfold PurePath.name, PurePath.of_string. simpl PurePath.parts.
  assert (Hs : exists xs, Str.split "/" (pre +:+ entry) = xs ++ [entry]).
  { destruct Hpre as [-> | (pre' & ->)].
    - exists []. now rewrite append_nil_l.
    - exists (Str.split "/" pre'). rewrite append_assoc.
      change ("/" +:+ entry) with (String "/" entry).
      unfold Str.split. rewrite split_from_app. fold (Str.split "/" entry).
      now rewrite Hsplit. }
  destruct Hs as (xs & ->).
  rewrite List.filter_app. simpl. rewrite Hkeep. apply List.last_last.
Qed.

Lemma to_string_child (dir : PurePath.t) (entry : string) :
  PurePath.to_string (PurePath.child dir entry)
  = PurePath.root dir +:+ Str.join "/" (PurePath.parts dir ++ [entry]).
Proof.
  unfold PurePath.to_string, PurePath.child. simpl.
  now destruct (PurePath.parts dir).
Qed.

(** Re-parsing the string of a discovered path gives back the entry name,
    as [transcribe_file(str(file_path))] relies on. *)
Lemma name_of_child_string (folder_path entry : string) :
  entry_name_ok entry = true ->
  let p := PurePath.child (PurePath.of_string folder_path) entry in
  PurePath.name p = entry
  /\ PurePath.name (PurePath.of_string (PurePath.to_string p)) = entry.
Proof.
  intros Hok p. split.
  - unfold p, PurePath.name, PurePath.child. simpl. apply List.last_last.
  - unfold p. rewrite to_string_child.
    set (dir := PurePath.of_string folder_path).
    destruct (PurePath.parts dir) as [|d ds] eqn:Hd.
    + simpl. apply name_of_string_entry; [exact Hok |].
      unfold dir. simpl.
      destruct (posix_root_cases folder_path) as [-> | [-> | ->]]; [auto | right..].
      * now exists "".
      * now exists "/".
    + rewrite join_snoc by discriminate. rewrite <- !append_assoc.
      apply name_of_string_entry; [exact Hok |]. right. eauto.
Qed.

Lemma glob_loop_fst E (dir : PurePath.t) (exts : list string) (w : World) :
  fst (glob_loop E dir exts [] w) = Return (discovered E w dir exts).
Proof. rewrite glob_loop_run. reflexivity. Qed.

Lemma glob_loop_found E (dir : PurePath.t) (w : World) (files : list PurePath.t) :
  fst (glob_loop E dir (audio_exts ++ video_exts) [] w) = Return files ->
  discovered E w dir (audio_exts ++ video_exts) = files.
Proof. rewrite glob_loop_run. simpl. congruence. Qed.

Lemma discovered_entry E (w : World) (dir : PurePath.t) (exts : list string)
    (p : PurePath.t) :
  p ∈ discovered E w dir exts ->
  exists entry, p = PurePath.child dir entry /\ entry ∈ scandir E w (PurePath.to_string dir).
Proof.
  intros Hp. apply discovered_iff in Hp.
  destruct Hp as (entry & ext & -> & Hentry & _). eauto.
Qed.

Lemma paths_loop_files_loop E model_name language (files : list PurePath.t) :
  Forall (fun q => PurePath.name (PurePath.of_string (PurePath.to_string q)) = PurePath.name q)
    files ->
  forall (results : list string) (w : World),
    paths_loop E files model_name language results w
    = files_loop E (List.map PurePath.to_string files) model_name language results w.
Proof.
  induction 1 as [|q rest Hq _ IH]; intros results w; [reflexivity |].
  simpl. rewrite Hq. set (body := try_except _ _). unfold bind.
  destruct (body w) as [[results' | msg] w1]; [apply IH | reflexivity].
Qed.

Lemma demo_listing_well_formed : listing_well_formed Demo.env.
Proof.
  intros w dir. simpl. unfold Demo.listing.
  destruct (String.eqb dir "/media"); [repeat constructor |].
  destruct (String.eqb dir "/mixed"); [repeat constructor |].
  destruct (String.eqb dir "/docs"); repeat constructor.
Qed.

(** X1.  When the scan of a folder finds files, [process_folder] does
    exactly what [process_files] does on the path strings of the files
    found, in the order found: the same report, the same download file, the
    same calls.  (Directory listings are assumed to hold entry names:
    non-empty, not [.], no separator.) *)
Theorem process_folder_as_process_files E model_name language (folder_path : string)
    (w : World) (p : PurePath.t) (ps : list PurePath.t) :
  listing_well_formed E ->
  folder_path ≠ "" ->
  fst (glob_loop E (PurePath.of_string folder_path) (audio_exts ++ video_exts) [] w)
  = Return (p :: ps) ->
  process_folder E folder_path model_name language w
  = process_files E (List.map PurePath.to_string (p :: ps)) model_name language w.
Proof.
  intros Hwf Hfolder Hfound. apply glob_loop_found in Hfound.
  assert (Hnames : Forall (fun q => PurePath.name (PurePath.of_string (PurePath.to_string q))
                                    = PurePath.name q) (p :: ps)).
  { rewrite <- Hfound. apply Forall_forall. intros q Hq.
    apply discovered_entry in Hq. destruct Hq as (entry & -> & Hentry).
    specialize (Hwf w (PurePath.to_string (PurePath.of_string folder_path))).
    rewrite Forall_forall in Hwf.
    destruct (name_of_child_string folder_path entry (Hwf entry Hentry)) as [H1 H2].
    congruence. }
  unfold process_folder.
  destruct (String.eqb_spec folder_path "") as [Heq | _]; [contradiction |].
  unfold bind at 1. rewrite glob_loop_run, Hfound.
  change ([] ++ p :: ps) with (p :: ps). cbv iota.
  change (List.map PurePath.to_string (p :: ps))
    with (PurePath.to_string p :: List.map PurePath.to_string ps).
  unfold process_files.
  change (PurePath.to_string p :: List.map PurePath.to_string ps)
    with (List.map PurePath.to_string (p :: ps)).
  set (k := fun results : list string => _).
  unfold bind.
  now rewrite (paths_loop_files_loop E model_name language (p :: ps) Hnames).
Qed.

Lemma process_folder_as_process_files_witness :
  process_folder Demo.env "/media/" "base" "auto" Demo.world0
  = process_files Demo.env
      (List.map PurePath.to_string
         [PurePath.mk "/" ["media"; "talk.mp3"]; PurePath.mk "/" ["media"; "b.wav"];
          PurePath.mk "/" ["media"; "CLIP.MP4"]; PurePath.mk "/" ["media"; "film.mkv"]])
      "base" "auto" Demo.world0.
Proof.
  apply (process_folder_as_process_files Demo.env "base" "auto" "/media/" Demo.world0).
  - exact demo_listing_well_formed.
  - discriminate.
  - vm_compute. reflexivity.
Defined.

(** X2.  What [process_folder] returns tells what happened: a download
    path comes only with a non-empty folder path and a scan that found
    something, and then the file at that path holds the returned text;
    without a download path the world is untouched and the text is one of
    the two messages.  Nothing is said of a run that raises. *)
Theorem process_folder_result_shape E model_name language (folder_path : string)
    (w : World) :
  match process_folder E folder_path model_name language w with
  | (Return (full_text, Some temp_output), w') =>
      fs w' !! temp_output = Some full_text
      /\ folder_path ≠ ""
      /\ fst (glob_loop E (PurePath.of_string folder_path) (audio_exts ++ video_exts) [] w)
         ≠ Return []
  | (Return (message, None), w') =>
      w' = w
      /\ ((folder_path = "" /\ message = "No folder selected")
          \/ (folder_path ≠ ""
              /\ fst (glob_loop E (PurePath.of_string folder_path)
                        (audio_exts ++ video_exts) [] w) = Return []
              /\ message = "No audio/video files found in folder"))
  | (Raise _, _) => True
  end.
Proof.
  remember (fst (glob_loop E (PurePath.of_string folder_path)
                   (audio_exts ++ video_exts) [] w)) as scan eqn:Hscan.
  rewrite glob_loop_fst in Hscan.
  destruct (String.eqb_spec folder_path "") as [Heq | Hne].
  - subst folder_path. unfold process_folder. simpl. auto.
  - destruct (discovered E w (PurePath.of_string folder_path) (audio_exts ++ video_exts))
      as [|p ps] eqn:Hfound.
    + rewrite (process_folder_nothing_found _ _ _ _ _ Hne Hfound).
      subst scan. split; [reflexivity |]. right. auto.
    + destruct (process_folder_run E model_name language folder_path w p ps Hne Hfound)
        as (os & w1 & _ & Hrun).
      rewrite Hrun. cbv zeta. subst scan.
      split; [apply lookup_insert_eq |]. split; [exact Hne | discriminate].
Qed.

(** X3.  For a folder whose scan finds files, the report of
    [process_folder] joins one entry per file found, in the order found;
    each file was handed to [transcribe_file] as the string of its path,
    whatever the outcome of the files before it, and the display name in
    its header is the name of its directory entry. *)
Theorem process_folder_one_entry_per_file E model_name language (folder_path : string)
    (w : World) (p : PurePath.t) (ps : list PurePath.t) :
  folder_path ≠ "" ->
  fst (glob_loop E (PurePath.of_string folder_path) (audio_exts ++ video_exts) [] w)
  = Return (p :: ps) ->
  exists (os : list (Outcome string)) (w1 w2 : World) (temp_output : string),
    batch_run E model_name language w (List.map PurePath.to_string (p :: ps)) os w1
    /\ length os = length (p :: ps)
    /\ process_folder E folder_path model_name language w
       = (Return (Str.join Str.nl (zip_with folder_entry_of (p :: ps) os),
                  Some temp_output), w2)
    /\ Forall (fun q =>
                 PurePath.name q
                 ∈ scandir E w (PurePath.to_string (PurePath.of_string folder_path)))
         (p :: ps).
Proof.
  intros Hfolder Hfound. apply glob_loop_found in Hfound.
  destruct (process_folder_run E model_name language folder_path w p ps Hfolder Hfound)
    as (os & w1 & Hbatch & Hrun).
  pose proof (batch_run_length _ _ _ _ _ _ _ Hbatch) as Hlen.
  rewrite length_map in Hlen.
  eexists os, w1, _, _. split; [exact Hbatch |]. split; [exact Hlen |].
  split; [exact Hrun |].
  rewrite <- Hfound. apply Forall_forall. intros q Hq.
  apply discovered_entry in Hq. destruct Hq as (entry & -> & Hentry).
  unfold PurePath.name, PurePath.child. simpl. now rewrite List.last_last.
Qed.

Lemma process_folder_one_entry_per_file_witness :
  let found :=
    [PurePath.mk "/" ["media"; "talk.mp3"]; PurePath.mk "/" ["media"; "b.wav"];
     PurePath.mk "/" ["media"; "CLIP.MP4"]; PurePath.mk "/" ["media"; "film.mkv"]] in
  exists (os : list (Outcome string)) (w2 : World) (temp_output : string),
    length os = 4%nat
    /\ process_folder Demo.env "/media" "base" "auto" Demo.world0
       = (Return (Str.join Str.nl (zip_with folder_entry_of found os), Some temp_output), w2).
Proof.
  intros found.
  destruct (process_folder_one_entry_per_file Demo.env "base" "auto" "/media" Demo.world0
              (PurePath.mk "/" ["media"; "talk.mp3"])
              [PurePath.mk "/" ["media"; "b.wav"]; PurePath.mk "/" ["media"; "CLIP.MP4"];
               PurePath.mk "/" ["media"; "film.mkv"]])
    as (os & w1 & w2 & temp_output & _ & Hlen & Hrun & _).
  - discriminate.
  - vm_compute. reflexivity.
  - exists os, w2, temp_output. split; [exact Hlen | exact Hrun].
Defined.

(** ** What the folder scan finds *)

Lemma discovered_by_pattern E (w : World) (dir : PurePath.t) (exts : list string) :
  discovered E w dir exts = flat_map (glob_hits E w dir) (scan_patterns exts).
Proof.
  unfold discovered, scan_patterns.
  induction exts as [|ext rest IH]; [reflexivity |].
  cbn [flat_map app]. rewrite IH. now rewrite <- app_assoc.
Qed.

Lemma fnmatch_literal (lit : string) :
  no_wildcard lit = true ->
  forall name, Str.fnmatch lit name = true <-> name = lit.
Proof.
  induction lit as [|c lit IH]; intros Hlit name.
  - simpl. apply String.eqb_eq.
  - simpl in Hlit. apply andb_true_iff in Hlit. destruct Hlit as [Hc Hlit].
    apply andb_true_iff in Hc. destruct Hc as [Hstar Hquestion].
    apply negb_true_iff in Hstar, Hquestion.
    simpl. rewrite Hstar, Hquestion.
    destruct name as [|a name]; [split; discriminate |].
    rewrite andb_true_iff, (IH Hlit name), Ascii.eqb_eq. split.
    + now intros [-> ->].
    + intros [= -> ->]. auto.
Qed.

Lemma fnmatch_star_suffix (lit : string) :
  no_wildcard lit = true ->
  forall name, Str.fnmatch (String "*" lit) name = true <-> exists pre, name = pre +:+ lit.
Proof.
  intros Hlit name. induction name as [|a name IH].
  - rewrite fnmatch_star, orb_false_r, (fnmatch_literal lit Hlit). split.
    + intros <-. now exists "".
    + intros (pre & Hpre). destruct pre as [|x pre]; [exact Hpre | discriminate].
  - rewrite fnmatch_star, orb_true_iff, (fnmatch_literal lit Hlit), IH. split.
    + intros [-> | (pre & ->)]; [now exists "" | now exists (String a pre)].
    + intros (pre & Hpre). destruct pre as [|x pre].
      * left. exact Hpre.
      * right. rewrite append_cons in Hpre. injection Hpre as _ ->. eauto.
Qed.

Lemma suffix_of_suffix (p1 : string) :
  forall (p2 a b : string),
    p1 +:+ a = p2 +:+ b ->
    (String.length b <= String.length a)%nat ->
    exists q, a = q +:+ b.
Proof.
  induction p1 as [|x p1 IH]; intros p2 a b Heq Hlen.
  - exists p2. exact Heq.
  - destruct p2 as [|y p2].
    + rewrite append_nil_l in Heq. subst b.
      rewrite append_cons in Hlen. simpl in Hlen. rewrite length_append in Hlen. lia.
    + rewrite !append_cons in Heq. injection Heq as _ Heq. now apply (IH p2).
Qed.

(** An entry matched by two wildcard-free pattern tails: one tail ends in
    the other. *)
Lemma two_patterns_one_entry (a b entry : string) :
  no_wildcard a = true -> no_wildcard b = true ->
  Str.fnmatch ("*" +:+ a) entry = true ->
  Str.fnmatch ("*" +:+ b) entry = true ->
  Str.fnmatch ("*" +:+ b) a = true \/ Str.fnmatch ("*" +:+ a) b = true.
Proof.
  intros Ha Hb Hma Hmb.
  change ("*" +:+ a) with (String "*" a) in *.
  change ("*" +:+ b) with (String "*" b) in *.
  apply (fnmatch_star_suffix a Ha) in Hma. destruct Hma as (p1 & Hp1).
  apply (fnmatch_star_suffix b Hb) in Hmb. destruct Hmb as (p2 & Hp2).
  destruct (Nat.le_ge_cases (String.length b) (String.length a)) as [Hle | Hle].
  - left. apply (fnmatch_star_suffix b Hb).
    apply (suffix_of_suffix p1 p2); [congruence | exact Hle].
  - right. apply (fnmatch_star_suffix a Ha).
    apply (suffix_of_suffix p2 p1); [congruence | exact Hle].
Qed.

Lemma scan_patterns_table :
  let pats := scan_patterns (audio_exts ++ video_exts) in
  NoDup pats
  /\ Forall (fun a => no_wildcard a = true) pats
  /\ forall a b, a ∈ pats -> b ∈ pats -> Str.fnmatch ("*" +:+ b) a = true -> a = b.
Proof.
  intros pats. split; [| split].
  - apply (bool_decide_unpack _). vm_compute. exact I.
  - subst pats. vm_compute. repeat constructor.
  - assert (Htable :
      forallb (fun a => forallb (fun b => String.eqb a b
                                          || negb (Str.fnmatch ("*" +:+ b) a)) pats) pats
      = true) by (vm_compute; reflexivity).
    intros a b Ha Hb Hmatch. rewrite forallb_forall in Htable.
    apply list_elem_of_In in Ha, Hb.
    specialize (Htable a Ha). rewrite forallb_forall in Htable.
    specialize (Htable b Hb). rewrite Hmatch in Htable. simpl in Htable.
    rewrite orb_false_r in Htable. now apply String.eqb_eq.
Qed.

Lemma NoDup_flat_map_disjoint {A B : Type} (f : A -> list B) (l : list A) :
  NoDup l ->
  (forall x, x ∈ l -> NoDup (f x)) ->
  (forall x y z, x ∈ l -> y ∈ l -> z ∈ f x -> z ∈ f y -> x = y) ->
  NoDup (flat_map f l).
Proof.
  induction l as [|x l IH]; intros Hl Heach Hdisj; [constructor |].
  simpl. apply NoDup_cons in Hl. destruct Hl as [Hx Hl].
  apply NoDup_app. split; [apply Heach; left | split].
  - intros z Hz Hz'. apply list_elem_of_In, in_flat_map in Hz'.
    destruct Hz' as (y & Hy & Hzy). apply list_elem_of_In in Hy, Hzy.
    assert (x = y) by (apply (Hdisj x y z); [left | now right | assumption..]).
    subst y. contradiction.
  - apply IH; [assumption | |].
    + intros y Hy. apply Heach. now right.
    + intros y1 y2 z Hy1 Hy2. apply Hdisj; now right.
Qed.

Lemma child_inj (dir : PurePath.t) (e1 e2 : string) :
  PurePath.child dir e1 = PurePath.child dir e2 -> e1 = e2.
Proof.
  unfold PurePath.child. intros [= Heq]. apply app_inv_head in Heq. congruence.
Qed.

(** X4.  The scan changes nothing and returns, for the audio extensions
    and then the video extensions in their listed order, the entries whose
    name matches [*ext] followed by those whose name matches [*EXT], each
    group in enumeration order; so a path is found exactly when it is an
    entry of the folder matching one of these patterns. *)
Theorem folder_scan_result E (dir : PurePath.t) (w : World) :
  let listing := scandir E w (PurePath.to_string dir) in
  let hits := fun pat : string =>
    List.map (PurePath.child dir) (List.filter (Str.fnmatch ("*" +:+ pat)) listing) in
  let found :=
    flat_map (fun ext => hits ext ++ hits (Str.upper ext)) (audio_exts ++ video_exts) in
  glob_loop E dir (audio_exts ++ video_exts) [] w = (Return found, w)
  /\ forall p : PurePath.t,
       p ∈ found
       <-> exists (entry ext : string),
             p = PurePath.child dir entry
             /\ entry ∈ listing
             /\ ext ∈ audio_exts ++ video_exts
             /\ (Str.fnmatch ("*" +:+ ext) entry = true
                 \/ Str.fnmatch ("*" +:+ Str.upper ext) entry = true).
Proof.
  intros listing hits found. split.
  - rewrite glob_loop_run. reflexivity.
  - intros p. apply (discovered_iff E w dir (audio_exts ++ video_exts) p).
Qed.

Lemma glob_hits_NoDup E (w : World) (dir : PurePath.t) (pat : string) :
  NoDup (scandir E w (PurePath.to_string dir)) -> NoDup (glob_hits E w dir pat).
Proof.
  intros Hlisting. unfold glob_hits.
  generalize (Str.fnmatch ("*" +:+ pat)). intros f.
  induction Hlisting as [|e l He _ IH]; [constructor |].
  simpl. destruct (f e); [| exact IH].
  simpl. constructor; [| exact IH].
  intros Hin. apply list_elem_of_In, in_map_iff in Hin.
  destruct Hin as (e' & Heq & He'). apply child_inj in Heq. subst e'.
  apply filter_In in He'. destruct He' as [He' _].
  apply He. now apply list_elem_of_In.
Qed.

Lemma glob_hits_entry E (w : World) (dir : PurePath.t) (pat : string) (p : PurePath.t) :
  p ∈ glob_hits E w dir pat ->
  exists entry, p = PurePath.child dir entry /\ Str.fnmatch ("*" +:+ pat) entry = true.
Proof.
  unfold glob_hits. intros Hp. apply list_elem_of_In, in_map_iff in Hp.
  destruct Hp as (entry & <- & Hentry). apply filter_In in Hentry.
  destruct Hentry as [_ Hmatch]. eauto.
Qed.

(** X5.  If the directory listing names no entry twice, the scan finds no
    file twice: no entry matches two of the patterns, so every file found
    is transcribed once. *)
Theorem folder_scan_no_duplicates E (dir : PurePath.t) (w : World)
    (files : list PurePath.t) :
  NoDup (scandir E w (PurePath.to_string dir)) ->
  fst (glob_loop E dir (audio_exts ++ video_exts) [] w) = Return files ->
  NoDup files.
Proof.
  intros Hlisting Hfound. apply glob_loop_found in Hfound. subst files.
  rewrite discovered_by_pattern.
  destruct scan_patterns_table as (Hpats & Hlit & Htable).
  rewrite Forall_forall in Hlit.
  apply NoDup_flat_map_disjoint; [exact Hpats | |].
  - intros pat _. now apply glob_hits_NoDup.
  - intros a b p Ha Hb Hpa Hpb.
    apply glob_hits_entry in Hpa, Hpb.
    destruct Hpa as (e1 & -> & Hm1). destruct Hpb as (e2 & Heq & Hm2).
    apply child_inj in Heq. subst e2.
    destruct (two_patterns_one_entry a b e1 (Hlit a Ha) (Hlit b Hb) Hm1 Hm2) as [H | H].
    + now apply Htable.
    + symmetry. now apply Htable.
Qed.

Lemma folder_scan_no_duplicates_witness :
  NoDup (scandir Demo.env Demo.world0 "/media")
  /\ NoDup (discovered Demo.env Demo.world0 (PurePath.of_string "/media")
              (audio_exts ++ video_exts)).
Proof.
  assert (Hlisting : NoDup (scandir Demo.env Demo.world0 "/media"))
    by (apply (bool_decide_unpack _); vm_compute; exact I).
  split; [exact Hlisting |].
  apply (folder_scan_no_duplicates Demo.env (PurePath.of_string "/media") Demo.world0).
  - exact Hlisting.
  - apply glob_loop_fst.
Defined.

(** X6.  Whatever the scan finds is an entry of the folder whose name,
    lower-cased, ends in one of the thirteen extensions: the scan never
    picks up a file of another kind. *)
Theorem folder_scan_sound_ignoring_case E (dir : PurePath.t) (w : World)
    (files : list PurePath.t) (p : PurePath.t) :
  fst (glob_loop E dir (audio_exts ++ video_exts) [] w) = Return files ->
  p ∈ files ->
  exists (entry ext : string),
    p = PurePath.child dir entry
    /\ entry ∈ scandir E w (PurePath.to_string dir)
    /\ ext ∈ audio_exts ++ video_exts
    /\ Str.fnmatch ("*" +:+ ext) (Str.lower entry) = true.
Proof.
  intros Hfound Hp. apply glob_loop_found in Hfound. subst files.
  now apply discovered_matches_ignoring_case.
Qed.

Lemma folder_scan_sound_ignoring_case_witness :
  exists (entry ext : string),
    PurePath.mk "/" ["media"; "CLIP.MP4"] = PurePath.child (PurePath.of_string "/media") entry
    /\ ext ∈ audio_exts ++ video_exts
    /\ Str.fnmatch ("*" +:+ ext) (Str.lower entry) = true.
Proof.
  destruct (folder_scan_sound_ignoring_case Demo.env (PurePath.of_string "/media")
              Demo.world0
              (discovered Demo.env Demo.world0 (PurePath.of_string "/media")
                 (audio_exts ++ video_exts))
              (PurePath.mk "/" ["media"; "CLIP.MP4"]))
    as (entry & ext & Hp & _ & Hext & Hmatch).
  - apply glob_loop_fst.
  - apply list_elem_of_In. vm_compute. auto.
  - exists entry, ext. auto.
Defined.

(** ** Discovery and classification *)

Lemma rfind_after_prefix (pre tail : string) :
  Str.rfind "." tail = None ->
  Str.rfind "." (pre +:+ String "." tail) = Some (String.length pre).
Proof.
  intros Htail. induction pre as [|x pre IH].
  - rewrite append_nil_l. simpl. now rewrite Htail.
  - rewrite append_cons. simpl. now rewrite IH.
Qed.

Lemma substring_all (s : string) : substring 0 (String.length s) s = s.
Proof. induction s as [|c s IH]; simpl; [reflexivity | now rewrite IH]. Qed.

Lemma drop_prefix (pre s : string) : Str.drop (String.length pre) (pre +:+ s) = s.
Proof.
  unfold Str.drop. rewrite length_append.
  replace (String.length pre + String.length s - String.length pre)%nat
    with (String.length s) by lia.
  induction pre as [|x pre IH].
  - rewrite append_nil_l. apply substring_all.
  - rewrite append_cons. simpl. exact IH.
Qed.

(** The suffix of a name made of a non-empty stem and a dotted extension
    without further dots is that extension. *)
Lemma suffix_of_stem_ext (p : PurePath.t) (pre tail : string) :
  PurePath.name p = pre +:+ String "." tail ->
  pre ≠ "" -> tail ≠ "" -> Str.rfind "." tail = None ->
  PurePath.suffix p = String "." tail.
Proof.
  intros Hname Hpre Htail Hnodot. unfold PurePath.suffix. cbv zeta.
  rewrite Hname, (rfind_after_prefix pre tail Hnodot).
  rewrite length_append. simpl String.length.
  assert (H1 : (0 <? String.length pre)%nat = true).
  { apply Nat.ltb_lt. destruct pre; [contradiction | simpl; lia]. }
  assert (H2 : (String.length pre <? String.length pre + S (String.length tail) - 1)%nat
               = true).
  { apply Nat.ltb_lt. destruct tail; [contradiction | simpl; lia]. }
  rewrite H1, H2. simpl andb. cbv iota. apply drop_prefix.
Qed.

Lemma suffix_of_discovered (folder_path entry pre tail : string) :
  entry_name_ok entry = true ->
  entry = pre +:+ String "." tail ->
  pre ≠ "" -> tail ≠ "" -> Str.rfind "." tail = None ->
  PurePath.suffix
    (PurePath.of_string
       (PurePath.to_string (PurePath.child (PurePath.of_string folder_path) entry)))
  = String "." tail.
Proof.
  intros Hok Hentry Hpre Htail Hnodot.
  apply (suffix_of_stem_ext _ pre tail); try assumption.
  destruct (name_of_child_string folder_path entry Hok) as [_ Hname].
  now rewrite Hname.
Qed.

Lemma suffix_of_match (folder_path entry lit tail : string) :
  entry_name_ok entry = true ->
  lit = String "." tail -> tail ≠ "" -> Str.rfind "." tail = None ->
  no_wildcard lit = true ->
  Str.fnmatch ("*" +:+ lit) entry = true ->
  entry ≠ lit ->
  PurePath.suffix
    (PurePath.of_string
       (PurePath.to_string (PurePath.child (PurePath.of_string folder_path) entry)))
  = lit.
Proof.
  intros Hok Hlit Htail Hnodot Hplain Hmatch Hstem.
  change ("*" +:+ lit) with (String "*" lit) in Hmatch.
  apply (fnmatch_star_suffix lit Hplain) in Hmatch. destruct Hmatch as (pre & Hpre).
  assert (Hne : pre ≠ "") by (intros ->; rewrite append_nil_l in Hpre; contradiction).
  rewrite Hlit in *. now apply (suffix_of_discovered folder_path entry pre tail).
Qed.

Lemma extension_shapes :
  Forall (fun ext =>
            exists tail tail_upper : string,
              ext = String "." tail /\ Str.upper ext = String "." tail_upper
              /\ tail ≠ "" /\ tail_upper ≠ ""
              /\ Str.rfind "." tail = None /\ Str.rfind "." tail_upper = None
              /\ no_wildcard ext = true /\ no_wildcard (Str.upper ext) = true
              /\ Str.lower ext = ext /\ Str.lower (Str.upper ext) = ext)
    (audio_exts ++ video_exts).
Proof.
  unfold audio_exts, video_exts. cbn [app].
  repeat (apply List.Forall_cons;
          [do 2 eexists; repeat split; (reflexivity || discriminate) |]).
  apply List.Forall_nil.
Qed.

(** X7.  Discovery and classification agree on every entry with a
    non-empty stem: an entry found under the pattern of an extension, as
    written or in upper case, is sent through extraction by
    [transcribe_file] exactly when that extension is a video extension. *)
Theorem discovered_entry_classification (folder_path entry ext : string) :
  entry_name_ok entry = true ->
  ext ∈ audio_exts ++ video_exts ->
  Str.fnmatch ("*" +:+ ext) entry = true
  \/ Str.fnmatch ("*" +:+ Str.upper ext) entry = true ->
  entry ≠ ext -> entry ≠ Str.upper ext ->
  is_video (PurePath.to_string (PurePath.child (PurePath.of_string folder_path) entry))
  <-> ext ∈ video_exts.
Proof.
  intros Hok Hext Hmatch Hstem1 Hstem2. unfold is_video.
  pose proof extension_shapes as Hshapes. rewrite Forall_forall in Hshapes.
  destruct (Hshapes ext Hext)
    as (tail & tail_upper & Hl & Hu & Ht & Htu & Hd & Hdu & Hp & Hpu & Hll & Hlu).
  destruct Hmatch as [Hmatch | Hmatch].
  - rewrite (suffix_of_match folder_path entry ext tail Hok Hl Ht Hd Hp Hmatch Hstem1).
    now rewrite Hll.
  - rewrite (suffix_of_match folder_path entry (Str.upper ext) tail_upper
               Hok Hu Htu Hdu Hpu Hmatch Hstem2).
    now rewrite Hlu.
Qed.

Lemma discovered_entry_classification_witness :
  is_video (PurePath.to_string (PurePath.child (PurePath.of_string "/media") "CLIP.MP4"))
  /\ ~ is_video (PurePath.to_string (PurePath.child (PurePath.of_string "/media") "talk.mp3")).
Proof.
  split.
  - apply (discovered_entry_classification "/media" "CLIP.MP4" ".mp4");
      [reflexivity | | right; reflexivity | discriminate | discriminate |];
      apply list_elem_of_In; simpl; auto 20.
  - intros Hvideo.
    apply (discovered_entry_classification "/media" "talk.mp3" ".mp3") in Hvideo;
      [| reflexivity | apply list_elem_of_In; simpl; auto | left; reflexivity
       | discriminate | discriminate].
    apply list_elem_of_In in Hvideo. simpl in Hvideo.
    repeat (destruct Hvideo as [Hvideo | Hvideo]; [discriminate |]). contradiction.
Defined.

(** A file named by the extension alone is found by the scan, and treated
    as audio: it has no suffix. *)
Example bare_extension_entry :
  Str.fnmatch ("*" +:+ ".mp4") ".mp4" = true
  /\ ~ is_video (PurePath.to_string (PurePath.child (PurePath.of_string "/media") ".mp4")).
Proof.
  split; [reflexivity |]. apply not_is_video_mem. reflexivity.
Qed.

(** ** A model that cannot be loaded *)

Lemma files_loop_load_fails E model_name language (msg : string) :
  (forall w', whisper_load_model E w' model_name = Raise msg) ->
  forall (files results : list string) (w : World),
    files_loop E files model_name language results w
    = (Return (results
               ++ List.map (fun f => entry_error (PurePath.name (PurePath.of_string f)) msg)
                    files),
       mkWorld (fs w) (trace w ++ List.map (fun _ => EvLoadModel model_name) files)).
Proof.
  intros Hload files. induction files as [|file rest IH]; intros results w.
  - cbn [files_loop List.map]. unfold ret. rewrite !app_nil_r. now destruct w.
  - cbn [files_loop List.map]. unfold bind at 1. unfold try_except, bind at 1.
    rewrite (transcribe_file_load_raises _ _ _ _ _ _ (Hload w)).
    unfold ret at 1. rewrite IH. unfold logged. cbn [fs trace].
    now rewrite <- !app_assoc.
Qed.

(** X8.  When [whisper.load_model] raises on the selected model, every
    item of a batch fails with that error before any extraction or
    recognition: the report holds one error entry per item, the only calls
    are one load attempt per item and the writing of the report, and the
    only change to the file system is the report file. *)
Theorem unloadable_model_fails_every_item E model_name language (msg : string)
    (file : string) (rest : list string) (w : World) :
  (forall w', whisper_load_model E w' model_name = Raise msg) ->
  let files := file :: rest in
  let full_text :=
    Str.join Str.nl
      (List.map (fun f => entry_error (PurePath.name (PurePath.of_string f)) msg) files) in
  let w1 := mkWorld (fs w) (trace w ++ List.map (fun _ => EvLoadModel model_name) files) in
  let temp_output := mkstemp_name E w1 ".txt" in
  process_files E files model_name language w
  = (Return (full_text, Some temp_output),
     mkWorld (<[temp_output := full_text]> (fs w))
             (trace w1 ++ [EvNamedTemporaryFile temp_output; EvWrite temp_output full_text])).
Proof.
  intros Hload files full_text w1 temp_output. subst files.
  unfold process_files. unfold bind at 1.
  rewrite (files_loop_load_fails E model_name language msg Hload).
  unfold bind at 1. rewrite save_report_run. reflexivity.
Qed.

Lemma unloadable_model_fails_every_item_witness :
  fst (process_files Demo.env_bad_model ["/up/clip.mp4"; "/up/speech.wav"] "huge" "auto"
         Demo.world0)
  = Return (unlines ["=== clip.mp4 ==="; "Error: Model huge not found"; "";
                     "=== speech.wav ==="; "Error: Model huge not found"],
            Some "/tmp/tmpxxxxxxxxxxxxxxx.txt").
Proof.
  rewrite (unloadable_model_fails_every_item Demo.env_bad_model "huge" "auto"
             "Model huge not found" "/up/clip.mp4" ["/up/speech.wav"] Demo.world0).
  - vm_compute. reflexivity.
  - intros w'. reflexivity.
Defined.

(** ** Items that are not videos *)






(** ** Videos: cleanup and extraction failures *)

(** X10.  When [transcribe_file] returns a text for a video, its last call
    was the unlink of the temporary waveform, and that file no longer
    exists.  (The temporary name differs from the input path.) *)
Theorem video_success_unlinks_temp E file_path model_name language (w : World)
    (text : string) :
  let r := transcribe_file E file_path model_name language w in
  let temp_audio := mkstemp_name E (logged w (EvLoadModel model_name)) ".wav" in
  is_video file_path ->
  temp_audio ≠ file_path ->
  fst r = Return text ->
  fs (snd r) !! temp_audio = None
  /\ exists evs : list Event, trace (snd r) = evs ++ [EvUnlink temp_audio].
Proof.
  intros r temp_audio Hvideo Hne. subst r. apply is_video_mem in Hvideo.
  destruct (whisper_load_model E w model_name) as [model | msg] eqn:Hload.
  2:{ rewrite (transcribe_file_load_raises _ _ _ _ _ _ Hload). discriminate. }
  rewrite (transcribe_file_video _ _ _ _ _ _ Hload Hvideo). cbv zeta. fold temp_audio.
  destruct (subprocess_run E _ _) as [[returncode fs'] | msg]; [| discriminate].
  destruct (model_transcribe E _ model _ _) as [text' | msg]; [| discriminate].
  destruct (String.eqb_spec temp_audio file_path) as [Heq | _]; [contradiction |].
  destruct (fs' !! temp_audio) eqn:Hlook; [| discriminate].
  intros _. cbn [snd fs trace]. split; [apply lookup_delete_eq | eauto].
Qed.

Lemma video_success_unlinks_temp_witness :
  fs (snd (transcribe_file Demo.env "/up/clip.mp4" "base" "auto" Demo.world0))
    !! "/tmp/tmpxxxxxxxxxxxxxxx.wav" = None.
Proof.
  apply (video_success_unlinks_temp Demo.env "/up/clip.mp4" "base" "auto" Demo.world0
           " words of pcm:video").
  - apply is_video_mem. reflexivity.
  - discriminate.
  - vm_compute. reflexivity.
Defined.

(** X11.  When the ffmpeg process cannot be started, [extract_audio]
    raises that error and leaves the temporary file it created, empty, on
    disk; the item fails with the same error and recognition is never
    called. *)
Theorem extraction_spawn_failure E video_path model_name language (w : World)
    (model msg : string) :
  let w0 := logged w (EvLoadModel model_name) in
  let temp_audio := mkstemp_name E w0 ".wav" in
  let w1 := mkWorld (<[temp_audio := ""]> (fs w0))
                    (trace w0 ++ [EvNamedTemporaryFile temp_audio]) in
  let cmd := ffmpeg_cmd video_path temp_audio in
  subprocess_run E w1 cmd = Raise msg ->
  extract_audio E video_path w0 = (Raise msg, logged w1 (EvSubprocessRun cmd))
  /\ fs (logged w1 (EvSubprocessRun cmd)) !! temp_audio = Some ""
  /\ (whisper_load_model E w model_name = Return model ->
      is_video video_path ->
      transcribe_file E video_path model_name language w
      = (Raise msg, logged w1 (EvSubprocessRun cmd))).
Proof.
  intros w0 temp_audio w1 cmd Hrun. split; [| split].
  - unfold extract_audio, bind at 1, NamedTemporaryFile.
    fold temp_audio. fold w1. fold cmd.
    unfold bind, run_subprocess. now rewrite Hrun.
  - cbn [logged fs w1]. apply lookup_insert_eq.
  - intros Hload Hvideo. apply is_video_mem in Hvideo.
    rewrite (transcribe_file_video _ _ _ _ _ _ Hload Hvideo). cbv zeta.
    fold w0. fold temp_audio. fold w1. fold cmd. now rewrite Hrun.
Qed.

Lemma extraction_spawn_failure_witness :
  let '(r, w') :=
    transcribe_file Demo.env_no_ffmpeg "/up/clip.mp4" "base" "auto" Demo.world0 in
  r = Raise "[Errno 2] No such file or directory: 'ffmpeg'"
  /\ fs w' !! "/tmp/tmpxxxxxxxxxxxxxxx.wav" = Some "".
Proof.
  destruct (extraction_spawn_failure Demo.env_no_ffmpeg "/up/clip.mp4" "base" "auto"
              Demo.world0 "base" "[Errno 2] No such file or directory: 'ffmpeg'" eq_refl)
    as (_ & Hfs & Hitem).
  rewrite Hitem; [| reflexivity | apply is_video_mem; reflexivity].
  split; [reflexivity | exact Hfs].
Defined.

(** ** How often the collaborators are called *)

Lemma count_events_app (f : Event -> bool) (a b : list Event) :
  count_events f (a ++ b) = (count_events f a + count_events f b)%nat.
Proof. unfold count_events. now rewrite List.filter_app, length_app. Qed.

Lemma transcribe_file_counts E file_path model_name language (w : World) :
  exists evs : list Event,
    emitted w (snd (transcribe_file E file_path model_name language w)) evs
    /\ count_events is_load_event evs = 1%nat
    /\ (count_events is_transcribe_event evs <= 1)%nat
    /\ (count_events is_unlink_event evs <= count_events is_subprocess_event evs)%nat
    /\ (count_events is_subprocess_event evs <= 1)%nat.
Proof.
  destruct (transcribe_file_events E file_path model_name language w)
    as (evs & Hem & Hcases).
  exists evs. split; [exact Hem |].
  destruct Hcases as [(-> & _) | [(_ & ->) | [(_ & -> & _) |
                      [(_ & -> & _) | (_ & _ & ->)]]]];
    cbn; repeat split; lia.
Qed.

(** X12.  A batch loads the model once per item, calls recognition at
    most once per item, starts at most one subprocess per item, and
    unlinks at most as often as it started a subprocess. *)
Theorem calls_per_batch E model_name language (files : list string) (w : World) :
  exists evs : list Event,
    emitted w (snd (process_files E files model_name language w)) evs
    /\ count_events is_load_event evs = length files
    /\ (count_events is_transcribe_event evs <= length files)%nat
    /\ (count_events is_subprocess_event evs <= length files)%nat
    /\ (count_events is_unlink_event evs <= count_events is_subprocess_event evs)%nat.
Proof.
  destruct files as [|file rest].
  - exists []. split; [unfold emitted; cbn; now rewrite app_nil_r |].
    cbn. repeat split; lia.
  - destruct (process_files_run E model_name language file rest w)
      as (os & w1 & Hbatch & Hrun).
    assert (Hev : exists evs, emitted w w1 evs
              /\ count_events is_load_event evs = length (file :: rest)
              /\ (count_events is_transcribe_event evs <= length (file :: rest))%nat
              /\ (count_events is_subprocess_event evs <= length (file :: rest))%nat
              /\ (count_events is_unlink_event evs
                  <= count_events is_subprocess_event evs)%nat).
    { clear Hrun. induction Hbatch as [w | w w1 w2 f fs0 o os Hrun _ IH].
      - exists []. split; [unfold emitted; now rewrite app_nil_r |].
        cbn. repeat split; lia.
      - destruct (transcribe_file_counts E f model_name language w)
          as (evs1 & Hem1 & Hl1 & Ht1 & Hu1 & Hs1).
        rewrite Hrun in Hem1. cbn [snd] in Hem1.
        destruct IH as (evs2 & Hem2 & Hl2 & Ht2 & Hs2 & Hu2).
        exists (evs1 ++ evs2). split.
        + unfold emitted in *. now rewrite Hem2, Hem1, app_assoc.
        + rewrite !count_events_app. cbn [length]. repeat split; lia. }
    destruct Hev as (evs & Hem & Hl & Ht & Hs & Hu).
    rewrite Hrun. cbv zeta. cbn [snd].
    eexists (evs ++ [_; _]). split.
    + unfold emitted in *. cbn [trace]. now rewrite Hem, app_assoc.
    + rewrite !count_events_app. cbn. cbn in Hl, Ht, Hs. repeat split; lia.
Qed.

(** ** Files that exist before a folder run *)

(** X13.  With temporary names that are not in use and an ffmpeg that
    writes nothing but its output file, every file that exists before
    [process_folder] starts exists afterwards with the same content. *)
Theorem folder_run_preserves_files E model_name language (folder_path : string)
    (w : World) (p c : string) :
  fresh_names E -> writes_only_output E ->
  fs w !! p = Some c ->
  fs (snd (process_folder E folder_path model_name language w)) !! p = Some c.
Proof.
  intros Hfresh Hconfined Hp.
  destruct (String.eqb_spec folder_path "") as [-> | Hne]; [exact Hp |].
  destruct (discovered E w (PurePath.of_string folder_path) (audio_exts ++ video_exts))
    as [|q qs] eqn:Hfound.
  - now rewrite (process_folder_nothing_found _ _ _ _ _ Hne Hfound).
  - destruct (process_folder_run E model_name language folder_path w q qs Hne Hfound)
      as (os & w1 & Hbatch & Hrun).
    rewrite Hrun. cbv zeta. cbn [snd fs].
    pose proof (batch_run_preserves E Hfresh Hconfined _ _ _ _ _ _ p c Hbatch Hp) as Hp1.
    rewrite lookup_insert_ne; [exact Hp1 |].
    apply not_eq_sym. now apply (fresh_name_differs E Hfresh w1 ".txt" p c).
Qed.

Lemma folder_run_preserves_files_witness :
  fs (snd (process_folder Demo.env "/media" "base" "auto" Demo.world0))
    !! "/media/CLIP.MP4" = Some "film".
Proof.
  apply (folder_run_preserves_files Demo.env "base" "auto" "/media" Demo.world0
           "/media/CLIP.MP4" "film" demo_fresh demo_confined).
  reflexivity.
Defined.

(** ** The report of a batch, item by item *)

Lemma batch_run_fun E model_name language w files os w1 :
  batch_run E model_name language w files os w1 ->
  forall os' w1',
    batch_run E model_name language w files os' w1' -> os = os' /\ w1 = w1'.
Proof.
  induction 1 as [w | w wa wb file rest o os Hrun _ IH]; intros os' w1' Hother.
  - inversion Hother; subst. auto.
  - inversion Hother as [| ? wa' ? ? ? o' os'' Hrun' Hrest']; subst.
    rewrite Hrun in Hrun'. injection Hrun' as <- <-.
    destruct (IH _ _ Hrest') as [<- <-]. auto.
Qed.

(** X14.  The report is built item by item: for a single item it is that
    item's entry; for more items it is the entry of the first item, a blank
    line, and the report [process_files] gives for the remaining items when
    started in the world the first item left; the download path is the
    same. *)
Theorem report_of_cons E model_name language (file file2 : string) (rest : list string)
    (w : World) :
  let '(o, w1) := transcribe_file E file model_name language w in
  (exists (temp_output : string) (w' : World),
      process_files E [file] model_name language w
      = (Return (entry_of file o, Some temp_output), w'))
  /\ (exists (text' temp_output : string) (w' w'' : World),
        process_files E (file2 :: rest) model_name language w1
        = (Return (text', Some temp_output), w')
        /\ process_files E (file :: file2 :: rest) model_name language w
           = (Return (entry_of file o +:+ Str.nl +:+ text', Some temp_output), w'')).
Proof.
  destruct (transcribe_file E file model_name language w) as [o w1] eqn:Hfirst.
  split.
  - destruct (process_files_run E model_name language file [] w)
      as (os & wa & Hbatch & Hrun).
    inversion Hbatch as [| ? ? ? ? ? o' os' Hrun' Hrest']; subst.
    inversion Hrest'; subst. rewrite Hfirst in Hrun'. injection Hrun' as <- <-.
    rewrite Hrun. cbv zeta. eauto.
  - destruct (process_files_run E model_name language file2 rest w1)
      as (os2 & w2 & Hbatch2 & Hrun2).
    destruct (process_files_run E model_name language file (file2 :: rest) w)
      as (os & wa & Hbatch & Hrun).
    assert (Hall : batch_run E model_name language w (file :: file2 :: rest) (o :: os2) w2)
      by (econstructor; eassumption).
    destruct (batch_run_fun _ _ _ _ _ _ _ Hbatch _ _ Hall) as [-> ->].
    rewrite Hrun2, Hrun. cbv zeta.
    inversion Hbatch2 as [| ? ? ? ? ? o2 os2' ? ?]; subst.
    do 4 eexists. split; reflexivity.
Qed.

Example two_item_report_demo :
  fst (process_files Demo.env ["/up/speech.wav"; "/up/clip.mp4"] "base" "auto" Demo.world0)
  = Return (entry_of "/up/speech.wav" (Return " words of hello") +:+ Str.nl
            +:+ entry_of "/up/clip.mp4" (Return " words of pcm:video"),
            Some "/tmp/tmpxxxxxxxxxxxxxxx.txt").
Proof. vm_compute. reflexivity. Qed.
